(** * Genome-Decoder: a shallow embedding of [decode_genome.py]

    The development follows the source file top to bottom:
    - [PyStr]: the Python [str] operations the program calls
      ([strip], [startswith], [split], [isdigit], [int], comparison);
    - [PyDict]: insertion-ordered dictionaries ([dict], [defaultdict],
      [Counter]);
    - [Run]: a small monad for code that mutates [self], prints and may
      raise;
    - [GenomeDecoder]: the class, one definition per method;
    - the theorems, grouped by method. *)

From Stdlib Require Import List ZArith NArith Lia Bool String Ascii.
From Stdlib Require Import QArith Permutation Sorted.
Import ListNotations.

Local Open Scope Z_scope.
Local Open Scope list_scope.

(* ================================================================= *)
(** ** Python strings *)

Module PyStr.

(** A Python [str] is a sequence of Unicode code points. *)
Definition char := N.
Definition str := list char.

(** An ASCII literal of the source, as a [str]. *)
Definition lit (s : string) : str := map N_of_ascii (list_ascii_of_string s).

Fixpoint str_eqb (a b : str) : bool :=
  match a, b with
  | [], [] => true
  | x :: a', y :: b' => N.eqb x y && str_eqb a' b'
  | _, _ => false
  end.

(** [a < b], [a == b], [a > b] on strings: lexicographic on code points. *)
Fixpoint str_compare (a b : str) : comparison :=
  match a, b with
  | [], [] => Eq
  | [], _ :: _ => Lt
  | _ :: _, [] => Gt
  | x :: a', y :: b' =>
      match N.compare x y with
      | Eq => str_compare a' b'
      | c => c
      end
  end.

(** [c.isspace()]: the characters [str.strip()] removes when called
    without an argument. *)
Definition isspace (c : char) : bool :=
  ((9 <=? c) && (c <=? 13) || (28 <=? c) && (c <=? 32)
   || (c =? 133) || (c =? 160) || (c =? 5760)
   || (8192 <=? c) && (c <=? 8202)
   || (c =? 8232) || (c =? 8233) || (c =? 8239) || (c =? 8287)
   || (c =? 12288))%N.

Fixpoint lstrip (s : str) : str :=
  match s with
  | c :: s' => if isspace c then lstrip s' else s
  | [] => []
  end.

Definition rstrip (s : str) : str := rev (lstrip (rev s)).

(** [s.strip()] *)
Definition strip (s : str) : str := rstrip (lstrip s).

(** [s.startswith(p)] *)
Fixpoint startswith (s p : str) : bool :=
  match p, s with
  | [], _ => true
  | y :: p', x :: s' => N.eqb x y && startswith s' p'
  | _ :: _, [] => false
  end.

(** [s.split(sep)] for a one-character separator: always at least one
    field, one more than the number of separators. *)
Fixpoint split (sep : char) (s : str) : list str :=
  match s with
  | [] => [[]]
  | c :: s' =>
      if N.eqb c sep then [] :: split sep s'
      else match split sep s' with
           | f :: fs => (c :: f) :: fs
           | [] => [[c]]
           end
  end.

Definition tab : char := 9%N.

(** Unicode decimal digits (Numeric_Type=Decimal) come in runs of ten
    consecutive code points, valued 0 to 9; this is the first code point
    of each run (Unicode 14.0, the table of CPython 3.11). *)
Definition decimal_zeros : list N :=
  [48; 1632; 1776; 1984; 2406; 2534; 2662; 2790; 2918; 3046; 3174; 3302;
   3430; 3558; 3664; 3792; 3872; 4160; 4240; 6112; 6160; 6470; 6608; 6784;
   6800; 6992; 7088; 7232; 7248; 42528; 43216; 43264; 43472; 43504; 43600;
   44016; 65296; 66720; 68912; 69734; 69872; 69942; 70096; 70384; 70736;
   70864; 71248; 71360; 71472; 71904; 72016; 72784; 73040; 73120; 92768;
   92864; 93008; 120782; 120792; 120802; 120812; 120822; 123200; 123632;
   125264; 130032]%N.

(** Characters with Numeric_Type=Digit that are not decimal (superscripts,
    subscripts, circled digits and the like), as inclusive ranges. *)
Definition digit_only_ranges : list (N * N) :=
  [(178, 179); (185, 185); (4969, 4977); (6618, 6618); (8304, 8304);
   (8308, 8313); (8320, 8329); (9312, 9320); (9332, 9340); (9352, 9360);
   (9450, 9450); (9461, 9469); (9471, 9471); (10102, 10110);
   (10112, 10120); (10122, 10130); (68160, 68163); (69216, 69224);
   (69714, 69722); (127232, 127242)]%N.

(** The value of a decimal digit, [None] for any other character. *)
Fixpoint decimal_in (zs : list N) (c : char) : option N :=
  match zs with
  | [] => None
  | z :: zs' =>
      if ((z <=? c) && (c <? z + 10))%N then Some (c - z)%N
      else decimal_in zs' c
  end.

Definition decimal_value (c : char) : option N := decimal_in decimal_zeros c.

Definition isdecimal_char (c : char) : bool :=
  match decimal_value c with Some _ => true | None => false end.

Definition isdigit_char (c : char) : bool :=
  isdecimal_char c
  || existsb (fun r => (fst r <=? c) && (c <=? snd r))%N digit_only_ranges.

(** [s.isdigit()]: at least one character, and all of them digits. *)
Definition isdigit (s : str) : bool :=
  match s with
  | [] => false
  | _ => forallb isdigit_char s
  end.

(** [s.isdecimal()], not called by the program; [int] accepts the digits
    it accepts. *)
Definition isdecimal (s : str) : bool :=
  match s with
  | [] => false
  | _ => forallb isdecimal_char s
  end.

(** Base-ten value of a string of decimal digits, most significant first;
    [None] at the first character that is not a decimal digit. *)
Fixpoint digits_value (acc : Z) (s : str) : option Z :=
  match s with
  | [] => Some acc
  | c :: s' =>
      match decimal_value c with
      | Some d => digits_value (10 * acc + Z.of_N d) s'
      | None => None
      end
  end.

End PyStr.

Export PyStr.

(* ================================================================= *)
(** ** Python dictionaries *)

(** [dict], [defaultdict(int)] and [Counter] keep their keys in insertion
    order; assigning to a key that is present replaces the value in
    place.  Keys are strings throughout the program. *)
Module PyDict.

Definition dict (V : Type) : Type := list (str * V).

Fixpoint get {V} (d : dict V) (k : str) : option V :=
  match d with
  | [] => None
  | (k', v) :: d' => if str_eqb k' k then Some v else get d' k
  end.

(** [k in d] *)
Definition contains {V} (d : dict V) (k : str) : bool :=
  match get d k with Some _ => true | None => false end.

(** [d[k] = v] *)
Fixpoint set {V} (d : dict V) (k : str) (v : V) : dict V :=
  match d with
  | [] => [(k, v)]
  | (k', v') :: d' =>
      if str_eqb k' k then (k', v) :: d' else (k', v') :: set d' k v
  end.

(** [d[k]] on a [defaultdict(int)] or a [Counter]: 0 for a missing key. *)
Definition count_of (d : dict Z) (k : str) : Z :=
  match get d k with Some n => n | None => 0 end.

(** [d[k] += 1] on a [defaultdict(int)] or a [Counter]. *)
Definition incr (d : dict Z) (k : str) : dict Z := set d k (count_of d k + 1).

Definition keys {V} (d : dict V) : list str := map fst d.
Definition values {V} (d : dict V) : list V := map snd d.
Definition items {V} (d : dict V) : list (str * V) := d.

(** [sum(d.values())] *)
Definition sum_values (d : dict Z) : Z := fold_right Z.add 0 (values d).

End PyDict.

Import PyDict.

(* ================================================================= *)
(** ** Data of the program *)

Inductive exn : Type :=
| ZeroDivisionError
| ValueError
| KeyError.

(** The ['position'] entry of a record: an [int] or the raw field. *)
Inductive position_t : Type :=
| PosInt (n : Z)
| PosStr (s : str).

(** One element of [self.snps]. *)
Record snp : Type := mkSnp {
  rsid : str;
  chromosome : str;
  position : position_t;
  genotype : str
}.

(** The attributes of a [GenomeDecoder] object. *)
Record decoder : Type := mkDecoder {
  filename : str;
  snps : list snp;
  chromosome_counts : dict Z;
  genotype_counts : dict Z;
  total_snps : Z;
  no_calls : Z
}.

Inductive apoe_type : Type := E2E2 | E2E3 | E3E3 | E3E4 | E4E4 | E2E4.

(** What the program prints, one constructor per [print] call with the
    interpolated values as arguments.  [Heading] stands for the three
    calls that print a rule, a title and a rule; a float is carried as
    the exact quotient it approximates, and the bar of a chromosome row,
    computed from that float, is left out. *)
Inductive out : Type :=
| Parsing (file : str)
| Parsed (total : Z)
| Heading (title : string)
| TotalSnps (total : Z)
| Genotyped (n : Z) (percent : Q)
| NoCalls (n : Z) (percent : Q)
| ChrRow (chrom : str) (count : Z) (percent : Q)
| Homozygous (n : Z) (percent : Q)
| Heterozygous (n : Z) (percent : Q)
| TopGenotype (gt : str) (count : Z) (percent : Q)
| Searching
| NoneFound
| Marker (id : str) (label : string)
| Location (chrom : str) (pos : Z)
| YourGenotype (gt : str)
| Interpretation (text : string)
| ApoeStatus
| ApoeGenotypes (rs429358_gt rs7412_gt : str)
| ApoeType (t : apoe_type)
| ApoeUnable
| ApoeIncomplete.

(* ================================================================= *)
(** ** Running a method *)

(** A method runs on the object, may change it, prints lines and either
    returns or raises.  When it raises, the object and the lines are those
    reached at that point. *)
Module Run.

Definition M (A : Type) : Type := decoder -> decoder * list out * (exn + A).

Definition ret {A} (a : A) : M A := fun self => (self, [], inr a).

Definition bind {A B} (m : M A) (k : A -> M B) : M B := fun self =>
  match m self with
  | (self1, o1, inl e) => (self1, o1, inl e)
  | (self1, o1, inr a) =>
      match k a self1 with
      | (self2, o2, r) => (self2, o1 ++ o2, r)
      end
  end.

Definition raise {A} (e : exn) : M A := fun self => (self, [], inl e).
(** The outcome of an expression that may raise. *)
Definition lift {A} (r : exn + A) : M A :=
  match r with
  | inl e => raise e
  | inr a => ret a
  end.

Definition print (o : out) : M unit := fun self => (self, [o], inr tt).
Definition get_self : M decoder := fun self => (self, [], inr self).
Definition update (f : decoder -> decoder) : M unit :=
  fun self => (f self, [], inr tt).

(** [for x in xs: body] *)
Fixpoint for_each {A} (xs : list A) (body : A -> M unit) : M unit :=
  match xs with
  | [] => ret tt
  | x :: xs' => bind (body x) (fun _ => for_each xs' body)
  end.

(** A loop that appends one computed element per iteration. *)
Fixpoint collect {A B} (xs : list A) (f : A -> M B) : M (list B) :=
  match xs with
  | [] => ret []
  | x :: xs' =>
      bind (f x) (fun y => bind (collect xs' f) (fun ys => ret (y :: ys)))
  end.

Definition state_of {A} (r : decoder * list out * (exn + A)) : decoder :=
  fst (fst r).
Definition printed {A} (r : decoder * list out * (exn + A)) : list out :=
  snd (fst r).
Definition raised {A} (r : decoder * list out * (exn + A)) : option exn :=
  match snd r with inl e => Some e | inr _ => None end.

End Run.

Import Run.

Notation "x <- m ;; k" := (bind m (fun x => k))
  (at level 61, m at next level, right associativity).
Notation "m ;; k" := (bind m (fun _ => k))
  (at level 61, right associativity).

(* ================================================================= *)
(** ** The class [GenomeDecoder] *)

Module GenomeDecoder.

(** [__init__] *)
Definition init (file : str) : decoder :=
  mkDecoder file [] [] [] 0 0.

(** *** [parse_genome_file] *)

(** The default of [sys.int_max_str_digits]: [int] refuses a string of
    more digits than this. *)
Definition int_max_str_digits : Z := 4300.

(** [int(s)] as the program calls it, on a string that passed
    [s.isdigit()]: [ValueError] when a character is not a decimal digit,
    or when there are more than [int_max_str_digits] digits (leading
    zeros count); the value otherwise. *)
Definition int (s : str) : exn + Z :=
  match digits_value 0 s with
  | Some n =>
      if int_max_str_digits <? Z.of_nat (List.length s) then inl ValueError
      else inr n
  | None => inl ValueError
  end.

(** Line 36: [int(position) if position.isdigit() else position]. *)
Definition position_of (field : str) : exn + position_t :=
  if isdigit field then
    match int field with
    | inr n => inr (PosInt n)
    | inl e => inl e
    end
  else inr (PosStr field).

Definition no_call : str := lit "--".

(** Lines 33 to 45, once the record has been built. *)
Definition record_snp (s : snp) : M unit :=
  update (fun self =>
    mkDecoder (filename self) (snps self ++ [s]) (chromosome_counts self)
      (genotype_counts self) (total_snps self) (no_calls self)) ;;
  update (fun self =>
    mkDecoder (filename self) (snps self)
      (incr (chromosome_counts self) (chromosome s))
      (genotype_counts self) (total_snps self) (no_calls self)) ;;
  update (fun self =>
    mkDecoder (filename self) (snps self) (chromosome_counts self)
      (incr (genotype_counts self) (genotype s))
      (total_snps self) (no_calls self)) ;;
  update (fun self =>
    mkDecoder (filename self) (snps self) (chromosome_counts self)
      (genotype_counts self) (total_snps self + 1) (no_calls self)) ;;
  if str_eqb (genotype s) no_call then
    update (fun self =>
      mkDecoder (filename self) (snps self) (chromosome_counts self)
        (genotype_counts self) (total_snps self) (no_calls self + 1))
  else ret tt.

(** The two [continue] tests of lines 23 and 26, on the stripped line. *)
Definition is_skipped (line : str) : bool :=
  (startswith line (lit "#") || str_eqb line [])
  || startswith line (lit "rsid").

(** The body of the loop over the lines of the file (lines 21 to 45). *)
Definition parse_line (raw : str) : M unit :=
  let line := strip raw in
  if startswith line (lit "#") || str_eqb line [] then ret tt
  else if startswith line (lit "rsid") then ret tt
  else
    match split tab line with
    | [rsid; chromosome; position; genotype] =>
        pos <- lift (position_of position) ;;
        record_snp (mkSnp rsid chromosome pos genotype)
    | _ => ret tt
    end.

(** [parse_genome_file], on the lines the opened file yields. *)
Definition parse_genome_file (f : list str) : M unit :=
  self <- get_self ;;
  print (Parsing (filename self)) ;;
  for_each f parse_line ;;
  self <- get_self ;;
  print (Parsed (total_snps self)).

(** *** [generate_summary] *)

(** [a / b] on two [int]s. *)
Definition truediv (a b : Z) : M Q :=
  if b =? 0 then raise ZeroDivisionError
  else ret (inject_Z a / inject_Z b)%Q.

(** Lines 64 to 67: the tuple appended for a chromosome label. *)
Definition chromosome_key (chrom : str) : exn + (Z * str) :=
  if isdigit chrom then
    match int chrom with
    | inr n => inr (n, chrom)
    | inl e => inl e
    end
  else
    inr (if str_eqb chrom (lit "X") then 100
         else if str_eqb chrom (lit "Y") then 101 else 102, chrom).

(** [a < b] on [(int, str)] tuples. *)
Definition key_ltb (a b : Z * str) : bool :=
  (fst a <? fst b)
  || (fst a =? fst b)
     && match str_compare (snd a) (snd b) with Lt => true | _ => false end.

Fixpoint insert_key (x : Z * str) (l : list (Z * str)) : list (Z * str) :=
  match l with
  | [] => [x]
  | y :: l' => if key_ltb y x then y :: insert_key x l' else x :: l
  end.

(** [list.sort()] on [(int, str)] tuples: ascending and stable. *)
Definition sort_keys (l : list (Z * str)) : list (Z * str) :=
  fold_right insert_key [] l.

(** Lines 84 to 90: one iteration of the classification loop. *)
Definition classify_step (acc : Z * Z) (item : str * Z) : Z * Z :=
  let '(homozygous, heterozygous) := acc in
  let '(genotype, count) := item in
  if negb (str_eqb genotype no_call) then
    if (List.length genotype =? 2)%nat then
      if N.eqb (nth 0 genotype 0%N) (nth 1 genotype 0%N)
      then (homozygous + count, heterozygous)
      else (homozygous, heterozygous + count)
    else acc
  else acc.

(** Lines 81 to 90: the totals [(homozygous, heterozygous)]. *)
Definition classify (genotype_counts : dict Z) : Z * Z :=
  fold_left classify_step (items genotype_counts) (0, 0).

Fixpoint insert_count (x : str * Z) (l : list (str * Z)) : list (str * Z) :=
  match l with
  | [] => [x]
  | y :: l' => if snd x <? snd y then y :: insert_count x l' else x :: l
  end.

(** [Counter.most_common(n)]: by count, largest first, equal counts in
    insertion order. *)
Definition most_common (n : nat) (c : dict Z) : list (str * Z) :=
  firstn n (fold_right insert_count [] (items c)).

Definition generate_summary : M unit :=
  self <- get_self ;;
  print (Heading "GENOME SUMMARY STATISTICS") ;;
  print (TotalSnps (total_snps self)) ;;
  p <- truediv (100 * (total_snps self - no_calls self)) (total_snps self) ;;
  print (Genotyped (total_snps self - no_calls self) p) ;;
  p <- truediv (100 * no_calls self) (total_snps self) ;;
  print (NoCalls (no_calls self) p) ;;
  print (Heading "CHROMOSOME DISTRIBUTION") ;;
  sorted_chromosomes <- collect (keys (chromosome_counts self))
                             (fun chrom => lift (chromosome_key chrom)) ;;
  for_each (sort_keys sorted_chromosomes) (fun kc =>
    let chrom := snd kc in
    let count := count_of (chromosome_counts self) chrom in
    q <- truediv count (total_snps self) ;;
    print (ChrRow chrom count (q * inject_Z 100)%Q)) ;;
  print (Heading "GENOTYPE DISTRIBUTION") ;;
  let '(homozygous, heterozygous) := classify (genotype_counts self) in
  p <- truediv (100 * homozygous) (homozygous + heterozygous) ;;
  print (Homozygous homozygous p) ;;
  p <- truediv (100 * heterozygous) (homozygous + heterozygous) ;;
  print (Heterozygous heterozygous p) ;;
  print (Heading "TOP 10 MOST COMMON GENOTYPES") ;;
  for_each (most_common 10 (genotype_counts self)) (fun gc =>
    q <- truediv (snd gc) (total_snps self) ;;
    print (TopGenotype (fst gc) (snd gc) (q * inject_Z 100)%Q)).

(** *** [analyze_specific_snps] *)

Definition dq : string := String (ascii_of_nat 34) EmptyString.

Definition interesting_snps : dict string :=
  [ (lit "rs1815739", "ACTN3 gene (muscle performance)"%string);
    (lit "rs1800497", "DRD2 gene (dopamine receptor)"%string);
    (lit "rs4680", "COMT gene (dopamine metabolism)"%string);
    (lit "rs1799971", "OPRM1 gene (opioid receptor)"%string);
    (lit "rs9939609", "FTO gene (obesity risk)"%string);
    (lit "rs7903146", "TCF7L2 gene (diabetes risk)"%string);
    (lit "rs429358", "APOE gene variant (Alzheimer's risk)"%string);
    (lit "rs7412", "APOE gene variant (Alzheimer's risk)"%string) ].

Definition genotype_interpretations : dict (dict string) :=
  [ (lit "rs1815739",
     [ (lit "CC", "RR genotype - Enhanced power/sprint performance, fast-twitch muscle fibers");
       (lit "CT", "RX genotype - Mixed muscle fiber type, intermediate performance");
       (lit "TT", "XX genotype - Enhanced endurance, higher injury risk, slower sprint performance") ]);
    (lit "rs1800497",
     [ (lit "GG", "Normal dopamine receptor (DRD2) density");
       (lit "AG", "Slightly reduced dopamine receptor density");
       (lit "AA", "Reduced dopamine receptor density, may affect reward processing") ]);
    (lit "rs4680",
     [ (lit "GG", "Val/Val - High COMT activity, faster dopamine breakdown (" ++ dq ++ "warrior" ++ dq ++ " variant)");
       (lit "AG", "Val/Met - Intermediate COMT activity");
       (lit "AA", "Met/Met - Low COMT activity (~75% reduced), slower dopamine breakdown, higher prefrontal dopamine (" ++ dq ++ "worrier" ++ dq ++ " variant)") ]);
    (lit "rs1799971",
     [ (lit "AA", "Normal opioid receptor (OPRM1) function");
       (lit "AG", "Altered opioid receptor function, may affect pain sensitivity");
       (lit "GG", "Significantly altered opioid receptor function, higher pain medication requirements") ]);
    (lit "rs9939609",
     [ (lit "TT", "Lower obesity risk, protective variant");
       (lit "AT", "Intermediate obesity risk");
       (lit "AA", "Higher obesity risk, increased tendency for high sugar/fat intake") ]);
    (lit "rs7903146",
     [ (lit "CC", "Lower type 2 diabetes risk");
       (lit "CT", "Moderate type 2 diabetes risk (~1.4x)");
       (lit "TT", "Higher type 2 diabetes risk (~2x)") ]) ]%string.

Definition rs429358 : str := lit "rs429358".
Definition rs7412 : str := lit "rs7412".

(** [x in ['rs429358', 'rs7412']] *)
Definition is_apoe (x : str) : bool := existsb (str_eqb x) [rs429358; rs7412].

(** Lines 157 to 160: one iteration of the search loop, on the two local
    dictionaries [(found_snps, apoe_snps)]. *)
Definition find_step (acc : dict snp * dict str) (s : snp)
  : dict snp * dict str :=
  let '(found_snps, apoe_snps) := acc in
  if contains interesting_snps (rsid s) then
    if is_apoe (rsid s)
    then (set found_snps (rsid s) s, set apoe_snps (rsid s) (genotype s))
    else (set found_snps (rsid s) s, apoe_snps)
  else acc.

(** Lines 153 to 160. *)
Definition find_snps (l : list snp) : dict snp * dict str :=
  fold_left find_step l ([], []).

(** [d[k]] on a plain [dict]. *)
Definition subscript {V} (d : dict V) (k : str) : M V :=
  match get d k with
  | Some v => ret v
  | None => raise KeyError
  end.

(** The format [{position:,}]: the thousands separator is refused for a
    [str]. *)
Definition format_comma (p : position_t) : M Z :=
  match p with
  | PosInt n => ret n
  | PosStr _ => raise ValueError
  end.

(** Lines 167 to 173: the body of the loop over [found_snps.items()]. *)
Definition report_marker (item : str * snp) : M unit :=
  let '(rsid, snp) := item in
  if negb (is_apoe rsid) then
    label <- subscript interesting_snps rsid ;;
    print (Marker rsid label) ;;
    pos <- format_comma (position snp) ;;
    print (Location (chromosome snp) pos) ;;
    print (YourGenotype (genotype snp)) ;;
    match get genotype_interpretations rsid with
    | Some table =>
        match get table (genotype snp) with
        | Some text => print (Interpretation text)
        | None => ret tt
        end
    | None => ret tt
    end
  else ret tt.

(** The text printed after ["  APOE type: "] for each allele pair. *)
Definition apoe_text (t : apoe_type) : string :=
  match t with
  | E2E2 => "ε2/ε2 - Lower Alzheimer's risk (protective)"
  | E2E3 => "ε2/ε3 - Lower than average Alzheimer's risk"
  | E3E3 => "ε3/ε3 - Average Alzheimer's risk (most common)"
  | E3E4 => "ε3/ε4 - Moderately increased Alzheimer's risk (~3x)"
  | E4E4 => "ε4/ε4 - Significantly increased Alzheimer's risk (~12-15x)"
  | E2E4 => "ε2/ε4 - Variable Alzheimer's risk"
  end%string.

(** Lines 175 to 197. *)
Definition report_apoe (apoe_snps : dict str) : M unit :=
  if contains apoe_snps rs429358 && contains apoe_snps rs7412 then
    print ApoeStatus ;;
    rs429358_gt <- subscript apoe_snps rs429358 ;;
    rs7412_gt <- subscript apoe_snps rs7412 ;;
    print (ApoeGenotypes rs429358_gt rs7412_gt) ;;
    if str_eqb rs429358_gt (lit "TT") && str_eqb rs7412_gt (lit "TT") then
      print (ApoeType E2E2)
    else if str_eqb rs429358_gt (lit "TT") && str_eqb rs7412_gt (lit "CT") then
      print (ApoeType E2E3)
    else if str_eqb rs429358_gt (lit "TT") && str_eqb rs7412_gt (lit "CC") then
      print (ApoeType E3E3)
    else if str_eqb rs429358_gt (lit "CT") && str_eqb rs7412_gt (lit "CC") then
      print (ApoeType E3E4)
    else if str_eqb rs429358_gt (lit "CC") && str_eqb rs7412_gt (lit "CC") then
      print (ApoeType E4E4)
    else if str_eqb rs429358_gt (lit "CT") && str_eqb rs7412_gt (lit "CT") then
      print (ApoeType E2E4)
    else
      print ApoeUnable
  else if contains apoe_snps rs429358 || contains apoe_snps rs7412 then
    print ApoeIncomplete
  else ret tt.

Definition analyze_specific_snps : M unit :=
  self <- get_self ;;
  print (Heading "GENETIC VARIANT ANALYSIS WITH INTERPRETATIONS") ;;
  print Searching ;;
  let '(found_snps, apoe_snps) := find_snps (snps self) in
  match found_snps with
  | [] => print NoneFound
  | _ :: _ =>
      for_each (items found_snps) report_marker ;;
      report_apoe apoe_snps
  end.

(** *** [main], without the optional export *)

Definition main (file : str) (f : list str)
  : decoder * list out * (exn + unit) :=
  (parse_genome_file f ;; generate_summary ;; analyze_specific_snps)
    (init file).

End GenomeDecoder.

Import GenomeDecoder.

(* ================================================================= *)
(** ** Vocabulary of the statements *)

(** The number of records of [l] whose [field] satisfies [P]. *)
Definition count_by (field : snp -> str) (P : str -> bool) (l : list snp) : Z :=
  Z.of_nat (List.length (filter (fun s => P (field s)) l)).

(** The sum of the counts a counter holds for the keys that satisfy [P]. *)
Definition tally (P : str -> bool) (d : dict Z) : Z :=
  fold_right (fun kv acc => if P (fst kv) then snd kv + acc else acc) 0 d.

Definition is_no_call (g : str) : bool := str_eqb g no_call.

(** A genotype other than the sentinel, two characters long, both the
    same. *)
Definition is_homozygous (g : str) : bool :=
  negb (is_no_call g)
  && match g with [a; b] => N.eqb a b | _ => false end.

(** A genotype other than the sentinel, two characters long, the two
    different. *)
Definition is_heterozygous (g : str) : bool :=
  negb (is_no_call g)
  && match g with [a; b] => negb (N.eqb a b) | _ => false end.

(** The last record of [l], in input order, with marker identifier
    [id]. *)
Definition last_with (id : str) (l : list snp) : option snp :=
  find (fun s => str_eqb (rsid s) id) (rev l).

(** The skip rule as the specification words it: the line is blank,
    starts with the comment marker, or its first tab-separated token is
    the literal [rsid]. *)
Definition spec_is_skipped (raw : str) : bool :=
  let line := strip raw in
  str_eqb line []
  || startswith line (lit "#")
  || str_eqb (hd [] (split tab line)) (lit "rsid").

(** The six cases of the APOE table: the genotypes of rs429358 and of
    rs7412, and the allele pair. *)
Definition apoe_table : list (str * str * apoe_type) :=
  [ (lit "TT", lit "TT", E2E2);
    (lit "TT", lit "CT", E2E3);
    (lit "TT", lit "CC", E3E3);
    (lit "CT", lit "CC", E3E4);
    (lit "CC", lit "CC", E4E4);
    (lit "CT", lit "CT", E2E4) ].

Definition is_apoe_out (o : out) : bool :=
  match o with
  | ApoeStatus | ApoeGenotypes _ _ | ApoeType _ | ApoeUnable
  | ApoeIncomplete => true
  | _ => false
  end.

(** A label the program takes as a number: [isdigit] holds and [int]
    returns [n]. *)
Definition numeric_label (chrom : str) (n : Z) : Prop :=
  isdigit chrom = true /\ int chrom = inr n.

(** [a < b] on the tuples of two labels. *)
Definition sorts_before (a b : str) : Prop :=
  exists ka kb, chromosome_key a = inr ka /\ chromosome_key b = inr kb
                /\ key_ltb ka kb = true.

(** The data line [rsid<TAB>chromosome<TAB>position<TAB>genotype] with
    its line terminator. *)
Definition data_line (rsid chromosome position genotype : str) : str :=
  rsid ++ [tab] ++ chromosome ++ [tab] ++ position ++ [tab] ++ genotype
  ++ [10%N].

(** The header line of a genotype report. *)
Definition header_line : str :=
  lit "rsid" ++ [tab] ++ lit "chromosome" ++ [tab] ++ lit "position"
  ++ [tab] ++ lit "genotype" ++ [10%N].

(** The tuples of lines 62 to 67 for a list of labels, or the exception
    of the first label whose conversion raises. *)
Fixpoint all_keys (labels : list str) : exn + list (Z * str) :=
  match labels with
  | [] => inr []
  | c :: labels' =>
      match chromosome_key c with
      | inl e => inl e
      | inr k =>
          match all_keys labels' with
          | inl e => inl e
          | inr ks => inr (k :: ks)
          end
      end
  end.

(** The lines [generate_summary] prints before the genotype section when
    the total is not zero and the labels convert to the tuples [ks]. *)
Definition summary_until_genotypes (self : decoder) (ks : list (Z * str))
  : list out :=
  [ Heading "GENOME SUMMARY STATISTICS";
    TotalSnps (total_snps self);
    Genotyped (total_snps self - no_calls self)
      (inject_Z (100 * (total_snps self - no_calls self))
       / inject_Z (total_snps self))%Q;
    NoCalls (no_calls self)
      (inject_Z (100 * no_calls self) / inject_Z (total_snps self))%Q;
    Heading "CHROMOSOME DISTRIBUTION" ]
  ++ map (fun kc =>
            ChrRow (snd kc) (count_of (chromosome_counts self) (snd kc))
              (inject_Z (count_of (chromosome_counts self) (snd kc))
               / inject_Z (total_snps self) * inject_Z 100)%Q)
         (sort_keys ks)
  ++ [ Heading "GENOTYPE DISTRIBUTION" ].

(** The labels of the autosomes with their numbers. *)
Definition autosomes : list (str * Z) :=
  map (fun n => (lit (fst n), snd n))
    [ ("1", 1); ("2", 2); ("3", 3); ("4", 4); ("5", 5); ("6", 6); ("7", 7);
      ("8", 8); ("9", 9); ("10", 10); ("11", 11); ("12", 12); ("13", 13);
      ("14", 14); ("15", 15); ("16", 16); ("17", 17); ("18", 18);
      ("19", 19); ("20", 20); ("21", 21); ("22", 22) ]%string.

(** [a <= b] on [(int, str)] tuples. *)
Definition key_le (a b : Z * str) : Prop := key_ltb b a = false.

(** The allele pair of the table for two genotypes, if any. *)
Definition apoe_lookup (rs429358_gt rs7412_gt : str) : option apoe_type :=
  option_map snd
    (find (fun e => str_eqb rs429358_gt (fst (fst e))
                    && str_eqb rs7412_gt (snd (fst e)))
          apoe_table).

(** The line printed for the APOE type. *)
Definition apoe_line (rs429358_gt rs7412_gt : str) : out :=
  match apoe_lookup rs429358_gt rs7412_gt with
  | Some t => ApoeType t
  | None => ApoeUnable
  end.

(** An entry of [found_snps] on which the report loop raises: a marker
    other than the two APOE markers whose position was kept as a
    string. *)
Definition marker_raises (item : str * snp) : bool :=
  negb (is_apoe (fst item))
  && match position (snd item) with
     | PosStr _ => true
     | PosInt _ => false
     end.

(** The lines of the APOE block for the records [l]. *)
Definition apoe_block (l : list snp) : list out :=
  match last_with rs429358 l, last_with rs7412 l with
  | Some a, Some b =>
      [ ApoeStatus; ApoeGenotypes (genotype a) (genotype b);
        apoe_line (genotype a) (genotype b) ]
  | None, None => []
  | _, _ => [ApoeIncomplete]
  end.

(** The relation between the counters and the records that every
    iteration of the parsing loop keeps. *)
Definition counters_ok (d : decoder) : Prop :=
  total_snps d = Z.of_nat (List.length (snps d))
  /\ (forall P, tally P (chromosome_counts d) = count_by chromosome P (snps d))
  /\ (forall P, tally P (genotype_counts d) = count_by genotype P (snps d))
  /\ no_calls d = count_by genotype is_no_call (snps d).

(** What [record_snp s] leaves in [self]. *)
Definition with_snp (self : decoder) (s : snp) : decoder :=
  mkDecoder (filename self) (snps self ++ [s])
    (incr (chromosome_counts self) (chromosome s))
    (incr (genotype_counts self) (genotype s))
    (total_snps self + 1)
    (if str_eqb (genotype s) no_call then no_calls self + 1
     else no_calls self).

(* ================================================================= *)
(** ** Vocabulary of the further statements *)

(** The string holds no tab. *)
Definition tab_free (s : str) : Prop := ~ In tab s.

(** Four fields that survive the stripping and the splitting of their
    line: no tab in any of them, a marker identifier that is not empty,
    starts with no whitespace, and starts with neither [#] nor [rsid], and
    a genotype that is not empty and ends with no whitespace. *)
Definition field_shape (r c p g : str) : Prop :=
  tab_free r /\ tab_free c /\ tab_free p /\ tab_free g
  /\ r <> [] /\ lstrip r = r
  /\ startswith r (lit "#") = false /\ startswith r (lit "rsid") = false
  /\ g <> [] /\ rstrip g = g.

(** A record that comes from four such fields. *)
Definition record_shape (s : snp) : Prop :=
  exists p, field_shape (rsid s) (chromosome s) p (genotype s)
            /\ position_of p = inr (position s).

(** The distinct elements of a list, in the order in which they first
    occur. *)
Definition first_seen (l : list str) : list str :=
  fold_left
    (fun acc x => if existsb (fun y => str_eqb y x) acc then acc
                  else acc ++ [x])
    l [].

(** The keys of the two counters against the records. *)
Definition counter_keys_ok (d : decoder) : Prop :=
  keys (chromosome_counts d) = first_seen (map chromosome (snps d))
  /\ keys (genotype_counts d) = first_seen (map genotype (snps d))
  /\ NoDup (keys (chromosome_counts d))
  /\ NoDup (keys (genotype_counts d)).

(** What line 36 leaves as the position of a record: an integer that is
    not negative, or a string that did not pass [isdigit]. *)
Definition position_shape (p : position_t) : Prop :=
  match p with
  | PosInt n => 0 <= n
  | PosStr raw => isdigit raw = false /\ tab_free raw
  end.

(** Every character of the string is an ASCII character. *)
Definition ascii_only (s : str) : Prop := Forall (fun c => (c < 128)%N) s.

(** An ASCII string of no more characters than [int] accepts digits. *)
Definition plain (s : str) : Prop :=
  ascii_only s /\ Z.of_nat (List.length s) <= int_max_str_digits.

(** All the lines [generate_summary] prints when it returns, the labels
    converting to the tuples [ks]. *)
Definition summary_lines (self : decoder) (ks : list (Z * str)) : list out :=
  let homozygous := fst (classify (genotype_counts self)) in
  let heterozygous := snd (classify (genotype_counts self)) in
  summary_until_genotypes self ks
  ++ [ Homozygous homozygous
         (inject_Z (100 * homozygous)
          / inject_Z (homozygous + heterozygous))%Q;
       Heterozygous heterozygous
         (inject_Z (100 * heterozygous)
          / inject_Z (homozygous + heterozygous))%Q;
       Heading "TOP 10 MOST COMMON GENOTYPES" ]
  ++ map (fun gc =>
            TopGenotype (fst gc) (snd gc)
              (inject_Z (snd gc) / inject_Z (total_snps self)
               * inject_Z 100)%Q)
         (most_common 10 (genotype_counts self)).

(** [a] has at least the count of [b]. *)
Definition count_ge (a b : str * Z) : Prop := snd b <= snd a.

(** The entries of a list that have the count [v]. *)
Definition with_count (v : Z) (l : list (str * Z)) : list (str * Z) :=
  filter (fun e => snd e =? v) l.

(** The label and the count of the chromosome rows among printed
    lines. *)
Fixpoint chr_rows (o : list out) : list (str * Z) :=
  match o with
  | [] => []
  | ChrRow chrom count _ :: o' => (chrom, count) :: chr_rows o'
  | _ :: o' => chr_rows o'
  end.

(** The identifiers of the marker lines among printed lines. *)
Fixpoint marker_ids (o : list out) : list str :=
  match o with
  | [] => []
  | Marker id _ :: o' => id :: marker_ids o'
  | _ :: o' => marker_ids o'
  end.

(** The lines the report loop prints for a marker. *)
Definition is_marker_out (o : out) : bool :=
  match o with
  | Marker _ _ | Location _ _ | YourGenotype _ | Interpretation _ => true
  | _ => false
  end.

(** The notable identifiers of the records, each once, in the order in
    which they first occur. *)
Definition notable_ids (l : list snp) : list str :=
  first_seen (filter (contains interesting_snps) (map rsid l)).

(* ================================================================= *)
(** ** [export_statistics] and the entry point *)

(** What [export_statistics] writes, one constructor per [write] call. *)
Inductive export_line : Type :=
| ExportTitle
| ExportRule
| ExportFile (file : str)
| ExportTotal (total : Z)
| ExportGenotyped (n : Z)
| ExportNoCalls (n : Z)
| ExportDistribution
| ExportChr (chrom : str) (count : Z).

(** What [export_statistics] does: it writes a file, then prints where. *)
Inductive effect : Type :=
| Wrote (path : str) (content : list export_line)
| Announced (path : str).

(** [a < b] on [(str, int)] tuples. *)
Definition item_ltb (a b : str * Z) : bool :=
  match str_compare (fst a) (fst b) with
  | Lt => true
  | Eq => snd a <? snd b
  | Gt => false
  end.

Fixpoint insert_item (x : str * Z) (l : list (str * Z)) : list (str * Z) :=
  match l with
  | [] => [x]
  | y :: l' => if item_ltb y x then y :: insert_item x l' else x :: l
  end.

(** [sorted(d.items())] on a counter: ascending and stable. *)
Definition sorted_items (d : dict Z) : list (str * Z) :=
  fold_right insert_item [] (items d).

(** Lines 199 to 212, on a path that can be opened for writing. *)
Definition export_statistics (self : decoder) (output_file : str)
  : list effect :=
  [ Wrote output_file
      ([ ExportTitle;
         ExportRule;
         ExportFile (filename self);
         ExportTotal (total_snps self);
         ExportGenotyped (total_snps self - no_calls self);
         ExportNoCalls (no_calls self);
         ExportDistribution ]
       ++ map (fun cc => ExportChr (fst cc) (snd cc))
              (sorted_items (chromosome_counts self)));
    Announced output_file ].

(** Lines 222 to 228: [main] with its [--export] flag. *)
Definition run_main (file : str) (f : list str) (export : bool)
  : (decoder * list out * (exn + unit)) * list effect :=
  let r := main file f in
  (r,
   match snd r with
   | inr _ =>
       if export then export_statistics (state_of r) (lit "genome_stats.txt")
       else []
   | inl _ => []
   end).

(** [a <= b] on [(str, int)] tuples. *)
Definition item_le (a b : str * Z) : Prop := item_ltb b a = false.

(** The label and the count of the chromosome lines of an export. *)
Fixpoint export_rows (content : list export_line) : list (str * Z) :=
  match content with
  | [] => []
  | ExportChr chrom count :: c' => (chrom, count) :: export_rows c'
  | _ :: c' => export_rows c'
  end.

(** The content an export wrote. *)
Definition written (es : list effect) : list export_line :=
  match es with
  | Wrote _ content :: _ => content
  | _ => []
  end.

(** For each notable identifier of the records, in the order in which
    they first occur, the last record that carries it. *)
Definition found_records (l : list snp) : list (str * snp) :=
  flat_map
    (fun id => match last_with id l with
               | Some s => [(id, s)]
               | None => []
               end)
    (notable_ids l).

(** The lines of the report for one entry whose position is an integer:
    none for the two APOE markers; for the others the marker, its
    location and genotype, and the interpretation when the genotype is in
    the marker's table. *)
Definition marker_block (item : str * snp) : list out :=
  if is_apoe (fst item) then []
  else
    match get interesting_snps (fst item), position (snd item) with
    | Some label, PosInt n =>
        [ Marker (fst item) label;
          Location (chromosome (snd item)) n;
          YourGenotype (genotype (snd item)) ]
        ++ match get genotype_interpretations (fst item) with
           | Some table =>
               match get table (genotype (snd item)) with
               | Some text => [Interpretation text]
               | None => []
               end
           | None => []
           end
    | _, _ => []
    end.

(* ================================================================= *)
(** ** Strings *)

Lemma str_eqb_eq (a b : str) : str_eqb a b = true <-> a = b.
Proof.
  revert b; induction a as [|x a IH]; intros [|y b]; simpl;
    split; try congruence; try discriminate.
  - intros H. apply andb_true_iff in H as [H1 H2].
    apply N.eqb_eq in H1. apply IH in H2. congruence.
  - intros H. injection H as -> ->. rewrite N.eqb_refl. simpl. now apply IH.
Qed.

Lemma str_eqb_refl (a : str) : str_eqb a a = true.
Proof. now apply str_eqb_eq. Qed.

Lemma str_eqb_neq (a b : str) : str_eqb a b = false <-> a <> b.
Proof.
  split.
  - intros H E. apply str_eqb_eq in E. congruence.
  - intros H. destruct (str_eqb a b) eqn:E; [|reflexivity].
    apply str_eqb_eq in E. contradiction.
Qed.

Lemma str_compare_refl (a : str) : str_compare a a = Eq.
Proof.
  induction a as [|x a IH]; simpl; [reflexivity|].
  now rewrite N.compare_refl.
Qed.

Lemma str_compare_eq (a b : str) : str_compare a b = Eq -> a = b.
Proof.
  revert b; induction a as [|x a IH]; intros [|y b]; simpl;
    try discriminate; try reflexivity.
  destruct (N.compare x y) eqn:E; try discriminate.
  apply N.compare_eq in E. intros H. apply IH in H. congruence.
Qed.

Lemma str_compare_antisym (a b : str) :
  str_compare b a = CompOpp (str_compare a b).
Proof.
  revert b; induction a as [|x a IH]; intros [|y b]; simpl; try reflexivity.
  rewrite (N.compare_antisym x y).
  destruct (N.compare x y); simpl; auto.
Qed.

Lemma str_compare_lt_trans (a b c : str) :
  str_compare a b = Lt -> str_compare b c = Lt -> str_compare a c = Lt.
Proof.
  revert b c; induction a as [|x a IH]; intros [|y b] [|z c]; simpl;
    try discriminate; try reflexivity.
  destruct (N.compare x y) eqn:Exy; try discriminate;
    destruct (N.compare y z) eqn:Eyz; try discriminate; intros H1 H2.
  - apply N.compare_eq in Exy, Eyz. subst. rewrite N.compare_refl. eauto.
  - apply N.compare_eq in Exy. subst. now rewrite Eyz.
  - apply N.compare_eq in Eyz. subst. now rewrite Exy.
  - rewrite N.compare_lt_iff in Exy, Eyz.
    assert (E : (x ?= z)%N = Lt) by (apply N.compare_lt_iff; lia).
    now rewrite E.
Qed.

(** [split] returns one field more than there are separators. *)
Lemma split_length (sep : char) (s : str) :
  List.length (split sep s)
  = S (List.length (filter (fun c => N.eqb c sep) s)).
Proof.
  induction s as [|c s IH]; simpl; [reflexivity|].
  destruct (N.eqb c sep); simpl; [now rewrite IH|].
  destruct (split sep s) as [|f fs]; simpl in *; [discriminate|exact IH].
Qed.

(* ================================================================= *)
(** ** Dictionaries *)

Lemma get_set_same {V} (d : dict V) (k : str) (v : V) :
  get (set d k v) k = Some v.
Proof.
  induction d as [|[k' v'] d IH]; simpl.
  - now rewrite str_eqb_refl.
  - destruct (str_eqb k' k) eqn:E; simpl; now rewrite E.
Qed.

Lemma get_set_other {V} (d : dict V) (k k2 : str) (v : V) :
  k <> k2 -> get (set d k v) k2 = get d k2.
Proof.
  intros N. induction d as [|[k' v'] d IH]; simpl.
  - apply str_eqb_neq in N. now rewrite N.
  - destruct (str_eqb k' k) eqn:E; simpl; [|now rewrite IH].
    apply str_eqb_eq in E. subst k'. apply str_eqb_neq in N. now rewrite N.
Qed.

Lemma keys_set_nodup {V} (d : dict V) (k : str) (v : V) :
  NoDup (keys d) -> NoDup (keys (set d k v)).
Proof.
  unfold keys. induction d as [|[k' v'] d IH]; simpl; intros H.
  - constructor; [intros []|constructor].
  - inversion H as [|? ? Hn Hd]; subst.
    destruct (str_eqb k' k) eqn:E; simpl; [now constructor|].
    constructor; [|now apply IH].
    intros Hin. apply Hn. clear - Hin E.
    induction d as [|[k2 v2] d IH]; simpl in *.
    + destruct Hin as [->|[]]. now rewrite str_eqb_refl in E.
    + destruct (str_eqb k2 k); simpl in *; tauto.
Qed.

Lemma get_in_nodup {V} (d : dict V) (k : str) (v : V) :
  NoDup (keys d) -> In (k, v) d -> get d k = Some v.
Proof.
  unfold keys. induction d as [|[k' v'] d IH]; simpl; intros H Hin; [easy|].
  inversion H as [|? ? Hn Hd]; subst.
  destruct Hin as [E|Hin].
  - injection E as -> ->. now rewrite str_eqb_refl.
  - destruct (str_eqb k' k) eqn:E; [|now apply IH].
    apply str_eqb_eq in E. subst. exfalso. apply Hn.
    now apply (in_map fst) in Hin.
Qed.

Lemma tally_incr (P : str -> bool) (d : dict Z) (k : str) :
  tally P (incr d k) = tally P d + (if P k then 1 else 0).
Proof.
  unfold incr, count_of. induction d as [|[k' v'] d IH]; simpl.
  - destruct (P k); lia.
  - destruct (str_eqb k' k) eqn:E; simpl.
    + apply str_eqb_eq in E. subst. destruct (P k); lia.
    + rewrite IH. destruct (P k'), (P k); lia.
Qed.

Lemma sum_values_tally (d : dict Z) : sum_values d = tally (fun _ => true) d.
Proof.
  unfold sum_values, values.
  induction d as [|[k v] d IH]; simpl; [reflexivity|now rewrite IH].
Qed.

Lemma count_by_app (field : snp -> str) (P : str -> bool)
      (l : list snp) (s : snp) :
  count_by field P (l ++ [s])
  = count_by field P l + (if P (field s) then 1 else 0).
Proof.
  unfold count_by. rewrite filter_app, length_app. simpl.
  destruct (P (field s)); simpl; lia.
Qed.

Lemma count_by_bounds (field : snp -> str) (P : str -> bool) (l : list snp) :
  0 <= count_by field P l <= Z.of_nat (List.length l).
Proof.
  unfold count_by. induction l as [|s l IH]; simpl; [lia|].
  destruct (P (field s)); simpl; lia.
Qed.

Lemma count_by_all (field : snp -> str) (l : list snp) :
  count_by field (fun _ => true) l = Z.of_nat (List.length l).
Proof.
  unfold count_by. induction l as [|s l IH]; [reflexivity|].
  cbn [filter List.length]. rewrite !Nat2Z.inj_succ. now rewrite IH.
Qed.

(** The three classes of a genotype exclude one another. *)
Lemma genotype_classes (g : str) :
  match is_homozygous g, is_heterozygous g, is_no_call g with
  | true, true, _ | true, _, true | _, true, true => False
  | _, _, _ => True
  end.
Proof.
  unfold is_homozygous, is_heterozygous.
  destruct (is_no_call g); simpl; [exact I|].
  destruct g as [|a [|b [|c g]]]; simpl; try exact I.
  now destruct (N.eqb a b).
Qed.

Lemma count_by_classes (l : list snp) :
  count_by genotype is_homozygous l + count_by genotype is_heterozygous l
  + count_by genotype is_no_call l <= Z.of_nat (List.length l).
Proof.
  unfold count_by. induction l as [|s l IH]; [simpl; lia|].
  pose proof (genotype_classes (genotype s)) as H. cbn [filter].
  destruct (is_homozygous (genotype s)), (is_heterozygous (genotype s)),
    (is_no_call (genotype s)); try contradiction;
    cbn [List.length]; rewrite ?Nat2Z.inj_succ; lia.
Qed.

(* ================================================================= *)
(** ** Facts about running a method *)

Lemma bind_returned {A B} (m : M A) (k : A -> M B) self self1 o1 a :
  m self = (self1, o1, inr a) ->
  bind m k self
  = (state_of (k a self1), o1 ++ printed (k a self1), snd (k a self1)).
Proof.
  intros H. unfold bind. rewrite H.
  now destruct (k a self1) as [[? ?] ?].
Qed.

Lemma bind_raised {A B} (m : M A) (k : A -> M B) self self1 o1 e :
  m self = (self1, o1, inl e) -> bind m k self = (self1, o1, inl e).
Proof. intros H. unfold bind. now rewrite H. Qed.

Lemma for_each_state {A} (I : decoder -> Prop) (body : A -> M unit) :
  (forall x d, I d -> I (state_of (body x d))) ->
  forall xs d, I d -> I (state_of (for_each xs body d)).
Proof.
  intros Hb xs. induction xs as [|x xs IH]; intros d Hd; simpl; [exact Hd|].
  unfold bind. specialize (Hb x d Hd).
  destruct (body x d) as [[d1 o1] [e|u]]; simpl in *; [exact Hb|].
  specialize (IH d1 Hb).
  now destruct (for_each xs body d1) as [[? ?] ?].
Qed.

(** An iteration that changes and prints nothing can be left out. *)
Lemma for_each_without {A} (body : A -> M unit) (x : A) :
  (forall d, body x d = (d, [], inr tt)) ->
  forall pre post d,
    for_each (pre ++ x :: post) body d = for_each (pre ++ post) body d.
Proof.
  intros Hx pre post. induction pre as [|y pre IH]; intros d; simpl.
  - unfold bind. rewrite Hx.
    now destruct (for_each post body d) as [[? ?] ?].
  - unfold bind. destruct (body y d) as [[d1 o1] [e|u]]; [reflexivity|].
    now rewrite IH.
Qed.

(* ================================================================= *)
(** ** [parse_genome_file] *)

Lemma record_snp_run (s : snp) (self : decoder) :
  record_snp s self = (with_snp self s, [], inr tt).
Proof.
  unfold record_snp, with_snp, bind, update, ret. simpl.
  now destruct (str_eqb (genotype s) no_call).
Qed.

Lemma position_of_error (field : str) (e : exn) :
  position_of field = inl e -> e = ValueError.
Proof.
  unfold position_of, int. destruct (isdigit field); [|discriminate].
  destruct (digits_value 0 field);
    [destruct (int_max_str_digits <? _)|]; try discriminate; congruence.
Qed.

(** The three outcomes of one iteration of the parsing loop. *)
Lemma parse_line_cases (raw : str) (self : decoder) :
  parse_line raw self = (self, [], inr tt)
  \/ parse_line raw self = (self, [], inl ValueError)
  \/ exists s, parse_line raw self = (with_snp self s, [], inr tt).
Proof.
  unfold parse_line.
  destruct (startswith (strip raw) (lit "#") || str_eqb (strip raw) []);
    [now left|].
  destruct (startswith (strip raw) (lit "rsid")); [now left|].
  destruct (split tab (strip raw)) as [|r [|c [|p [|g [|x fs]]]]];
    try (now left).
  destruct (position_of p) as [e|pos] eqn:E.
  - apply position_of_error in E. subst. right; left. reflexivity.
  - right; right. exists (mkSnp r c pos g).
    unfold bind, lift, ret. now rewrite record_snp_run.
Qed.

Lemma parse_genome_file_state (f : list str) (d : decoder) :
  state_of (parse_genome_file f d) = state_of (for_each f parse_line d).
Proof.
  unfold parse_genome_file, bind, get_self, print. simpl.
  now destruct (for_each f parse_line d) as [[d1 o1] [e|[]]].
Qed.

Lemma counters_ok_init (file : str) : counters_ok (init file).
Proof. repeat split. Qed.

Lemma counters_ok_with_snp (d : decoder) (s : snp) :
  counters_ok d -> counters_ok (with_snp d s).
Proof.
  intros (Ht & Hc & Hg & Hn). unfold counters_ok, with_snp. simpl.
  repeat split.
  - rewrite length_app. simpl. lia.
  - intros P. now rewrite tally_incr, count_by_app, Hc.
  - intros P. now rewrite tally_incr, count_by_app, Hg.
  - rewrite count_by_app. unfold is_no_call at 2.
    destruct (str_eqb (genotype s) no_call); lia.
Qed.

Lemma counters_ok_parse_line (raw : str) (d : decoder) :
  counters_ok d -> counters_ok (state_of (parse_line raw d)).
Proof.
  intros H. destruct (parse_line_cases raw d) as [E|[E|[s E]]];
    rewrite E; unfold state_of; simpl; auto using counters_ok_with_snp.
Qed.

Lemma counters_ok_parsed (file : str) (f : list str) :
  counters_ok (state_of (parse_genome_file f (init file))).
Proof.
  rewrite parse_genome_file_state.
  apply for_each_state;
    auto using counters_ok_parse_line, counters_ok_init.
Qed.

(** C3. After the parsing pass over any sequence of lines, whether the
    loop ran to the end or stopped on an exception, the total count is the
    sum of the per-chromosome counts and the sum of the per-genotype
    counts, it is the number of records kept, the no-call count is the
    number of records whose genotype is exactly the sentinel, and it is
    at most the total. *)
Theorem counters_after_parsing (file : str) (f : list str) :
  let self := state_of (parse_genome_file f (init file)) in
  total_snps self = sum_values (chromosome_counts self)
  /\ total_snps self = sum_values (genotype_counts self)
  /\ total_snps self = Z.of_nat (List.length (snps self))
  /\ no_calls self
     = count_by genotype (fun g => str_eqb g (lit "--")) (snps self)
  /\ 0 <= no_calls self <= total_snps self.
Proof.
  intros self. destruct (counters_ok_parsed file f) as (Ht & Hc & Hg & Hn).
  fold self in Ht, Hc, Hg, Hn.
  repeat split.
  - now rewrite sum_values_tally, Hc, count_by_all.
  - now rewrite sum_values_tally, Hg, count_by_all.
  - exact Ht.
  - exact Hn.
  - rewrite Hn. apply count_by_bounds.
  - rewrite Hn, Ht. apply count_by_bounds.
Qed.

Lemma parse_line_malformed (raw : str) (d : decoder) :
  List.length (split tab (strip raw)) <> 4%nat ->
  parse_line raw d = (d, [], inr tt).
Proof.
  intros H. unfold parse_line.
  destruct (startswith (strip raw) (lit "#") || str_eqb (strip raw) []);
    [reflexivity|].
  destruct (startswith (strip raw) (lit "rsid")); [reflexivity|].
  destruct (split tab (strip raw)) as [|r [|c [|p [|g [|x fs]]]]];
    try reflexivity.
  now contradiction H.
Qed.

(** C4, the claim as stated fails: the line [<TAB>rs4<TAB>4<TAB>400<TAB>AA]
    is not blank, is no comment and no header, and splits on tabs into
    five fields, the first one empty; and yet the parser keeps its record,
    because [strip()] on line 21 removes the leading tab before the split
    of line 29. *)
Lemma leading_tab_line_is_kept :
  let raw := [tab] ++ data_line (lit "rs4") (lit "4") (lit "400") (lit "AA") in
  let kept := mkSnp (lit "rs4") (lit "4") (PosInt 400) (lit "AA") in
  split tab raw = [[]; lit "rs4"; lit "4"; lit "400"; lit "AA" ++ [10%N]]
  /\ List.length (split tab raw) = 5%nat
  /\ str_eqb raw [] = false
  /\ startswith raw (lit "#") = false
  /\ str_eqb (hd [] (split tab raw)) (lit "rsid") = false
  /\ spec_is_skipped raw = false
  /\ split tab (strip raw) = [lit "rs4"; lit "4"; lit "400"; lit "AA"]
  /\ parse_line raw (init []) = (with_snp (init []) kept, [], inr tt)
  /\ snps (state_of (parse_genome_file [raw] (init []))) = [kept]
  /\ total_snps (state_of (parse_genome_file [raw] (init []))) = 1.
Proof. vm_compute. repeat split. Qed.

(** C4, amended. A line that, after [strip()] has removed the whitespace
    around it, does not split on tabs into exactly four fields is
    discarded: the iteration leaves the object as it was, prints nothing
    and raises nothing, so that the whole pass gives the same result as on
    the input without that line. *)
Theorem malformed_line_discarded (self : decoder) (raw : str) :
  List.length (split tab (strip raw)) <> 4%nat ->
  parse_line raw self = (self, [], inr tt)
  /\ forall pre post,
       parse_genome_file (pre ++ raw :: post) self
       = parse_genome_file (pre ++ post) self.
Proof.
  intros H. split; [now apply parse_line_malformed|].
  intros pre post. unfold parse_genome_file, bind, get_self, print.
  rewrite (for_each_without parse_line raw); [reflexivity|].
  intros d. now apply parse_line_malformed.
Qed.

Lemma malformed_line_discarded_witness :
  let raw := lit "rs1" ++ [tab] ++ lit "1" ++ [tab] ++ lit "100" ++ [10%N] in
  List.length (split tab (strip raw)) = 3%nat
  /\ is_skipped (strip raw) = false
  /\ parse_line raw (init []) = (init [], [], inr tt).
Proof.
  split; [reflexivity|]. split; [reflexivity|].
  apply (malformed_line_discarded (init [])
           (lit "rs1" ++ [tab] ++ lit "1" ++ [tab] ++ lit "100" ++ [10%N])).
  vm_compute. discriminate.
Defined.

(* ================================================================= *)
(** ** The position field *)

Lemma isdecimal_digits_value (s : str) (acc : Z) :
  forallb isdecimal_char s = true -> exists n, digits_value acc s = Some n.
Proof.
  revert acc. induction s as [|c s IH]; intros acc H; simpl in *.
  - now exists acc.
  - apply andb_true_iff in H as [Hc Hs]. unfold isdecimal_char in Hc.
    destruct (decimal_value c); [|discriminate]. now apply IH.
Qed.

Lemma not_decimal_digits_value (s : str) (acc : Z) :
  forallb isdecimal_char s = false -> digits_value acc s = None.
Proof.
  revert acc. induction s as [|c s IH]; intros acc H; simpl in *.
  - discriminate.
  - unfold isdecimal_char in H.
    destruct (decimal_value c); [|reflexivity]. now apply IH.
Qed.

Lemma isdecimal_isdigit (s : str) : isdecimal s = true -> isdigit s = true.
Proof.
  unfold isdecimal, isdigit. destruct s as [|c s]; [discriminate|].
  generalize (c :: s). intros l. induction l as [|x l IH]; simpl; auto.
  intros H. apply andb_true_iff in H as [Hx Hl].
  unfold isdigit_char. rewrite Hx. simpl. auto.
Qed.

(** The outcomes of line 36, by the characters of the field and their
    number. *)
Lemma position_of_cases (field : str) :
  (isdigit field = false -> position_of field = inr (PosStr field))
  /\ (isdecimal field = true ->
      Z.of_nat (List.length field) <= int_max_str_digits ->
      exists n, digits_value 0 field = Some n
                /\ position_of field = inr (PosInt n))
  /\ (isdigit field = true -> isdecimal field = false ->
      position_of field = inl ValueError)
  /\ (isdigit field = true ->
      int_max_str_digits < Z.of_nat (List.length field) ->
      position_of field = inl ValueError).
Proof.
  unfold position_of, int. split; [|split; [|split]].
  - now intros ->.
  - intros H L. rewrite (isdecimal_isdigit _ H).
    apply Z.ltb_ge in L. rewrite L.
    unfold isdecimal in H. destruct field as [|c s]; [discriminate|].
    destruct (isdecimal_digits_value (c :: s) 0 H) as [n Hn].
    exists n. now rewrite Hn.
  - intros H1 H2. rewrite H1. unfold isdecimal in H2.
    destruct field as [|c s]; [discriminate|].
    now rewrite (not_decimal_digits_value (c :: s) 0 H2).
  - intros H1 L. rewrite H1. apply Z.ltb_lt in L. rewrite L.
    now destruct (digits_value 0 field).
Qed.

Example position_12345 : position_of (lit "12345") = inr (PosInt 12345).
Proof. reflexivity. Qed.

Example position_contig :
  position_of (lit "Un_gl000211") = inr (PosStr (lit "Un_gl000211")).
Proof. reflexivity. Qed.

(** C8. The position field U+00B2 (superscript two) passes [isdigit], is
    not a decimal digit, and [int] refuses it: the record is not built and
    the parsing pass raises [ValueError]. *)
Theorem superscript_position_raises :
  let field := [178%N] in
  let f := [data_line (lit "rs1") (lit "1") field (lit "AA")] in
  isdigit field = true
  /\ isdecimal field = false
  /\ position_of field = inl ValueError
  /\ parse_genome_file f (init (lit "genome.txt"))
     = (init (lit "genome.txt"), [Parsing (lit "genome.txt")],
        inl ValueError).
Proof. repeat split. Qed.

(* ================================================================= *)
(** ** [generate_summary] *)

Lemma classify_step_totals (h t : Z) (g : str) (c : Z) :
  classify_step (h, t) (g, c)
  = (h + (if is_homozygous g then c else 0),
     t + (if is_heterozygous g then c else 0)).
Proof.
  unfold classify_step, is_homozygous, is_heterozygous, is_no_call.
  destruct (str_eqb g no_call); simpl; [f_equal; lia|].
  destruct g as [|a [|b [|x g]]]; simpl; try (f_equal; lia).
  destruct (N.eqb a b); simpl; f_equal; lia.
Qed.

Lemma classify_fold (d : dict Z) (h t : Z) :
  fold_left classify_step d (h, t)
  = (h + tally is_homozygous d, t + tally is_heterozygous d).
Proof.
  revert h t. induction d as [|[g c] d IH]; intros h t;
    cbn [fold_left tally fold_right fst snd].
  - f_equal; lia.
  - rewrite classify_step_totals, IH. fold (tally is_homozygous d).
    fold (tally is_heterozygous d).
    destruct (is_homozygous g), (is_heterozygous g); f_equal; lia.
Qed.

Lemma classify_tally (d : dict Z) :
  classify d = (tally is_homozygous d, tally is_heterozygous d).
Proof. unfold classify, items. now rewrite classify_fold. Qed.

(** C7. On the counters the parsing pass leaves, the classification loop
    returns as homozygous total the number of records whose genotype is
    not the sentinel, is two characters long and has both characters
    equal, and as heterozygous total the number of those with two
    different characters; a genotype of any other length is in neither;
    and the two totals together are at most the total count less the
    no-call count. *)
Theorem classification_totals (file : str) (f : list str) :
  let self := state_of (parse_genome_file f (init file)) in
  let homozygous := fst (classify (genotype_counts self)) in
  let heterozygous := snd (classify (genotype_counts self)) in
  homozygous = count_by genotype is_homozygous (snps self)
  /\ heterozygous = count_by genotype is_heterozygous (snps self)
  /\ (forall g, List.length g <> 2%nat ->
                is_homozygous g = false /\ is_heterozygous g = false)
  /\ (forall a b, [a; b] <> lit "--" ->
                  is_homozygous [a; b] = N.eqb a b
                  /\ is_heterozygous [a; b] = negb (N.eqb a b))
  /\ homozygous + heterozygous <= total_snps self - no_calls self.
Proof.
  intros self homozygous heterozygous.
  destruct (counters_ok_parsed file f) as (Ht & Hc & Hg & Hn).
  fold self in Ht, Hc, Hg, Hn.
  assert (Hh : homozygous = count_by genotype is_homozygous (snps self)).
  { unfold homozygous. rewrite classify_tally. simpl. apply Hg. }
  assert (He : heterozygous = count_by genotype is_heterozygous (snps self)).
  { unfold heterozygous. rewrite classify_tally. simpl. apply Hg. }
  split; [exact Hh|]. split; [exact He|]. split; [|split].
  - intros g Hlen. unfold is_homozygous, is_heterozygous.
    destruct g as [|a [|b [|c g]]]; simpl in *;
      rewrite ?andb_false_r; auto. now exfalso; apply Hlen.
  - intros a b Hne. unfold is_homozygous, is_heterozygous, is_no_call.
    apply str_eqb_neq in Hne. unfold no_call. now rewrite Hne.
  - rewrite Hh, He, Hn, Ht.
    pose proof (count_by_classes (snps self)). lia.
Qed.

Lemma generate_summary_zero_total (self : decoder) :
  total_snps self = 0 ->
  generate_summary self
  = (self, [Heading "GENOME SUMMARY STATISTICS"; TotalSnps 0],
     inl ZeroDivisionError).
Proof.
  intros H. unfold generate_summary, bind, get_self, print, truediv.
  simpl. rewrite H. reflexivity.
Qed.

(** C1. When the parsing pass leaves a total of zero, [generate_summary]
    prints the heading and the total and then raises [ZeroDivisionError]
    at the first percentage (line 55): the zero total is not
    special-cased. *)
Theorem zero_total_summary_raises (file : str) (f : list str) :
  let self := state_of (parse_genome_file f (init file)) in
  total_snps self = 0 ->
  generate_summary self
  = (self, [Heading "GENOME SUMMARY STATISTICS"; TotalSnps 0],
     inl ZeroDivisionError).
Proof. intros self. apply generate_summary_zero_total. Qed.

Lemma zero_total_summary_raises_witness :
  raised (generate_summary
            (state_of (parse_genome_file [] (init (lit "genome.txt")))))
  = Some ZeroDivisionError
  /\ raised (generate_summary
               (state_of (parse_genome_file [lit "# header only"; header_line]
                            (init (lit "genome.txt")))))
     = Some ZeroDivisionError.
Proof.
  split.
  - rewrite (zero_total_summary_raises (lit "genome.txt") []); reflexivity.
  - rewrite (zero_total_summary_raises (lit "genome.txt")
               [lit "# header only"; header_line]); reflexivity.
Defined.

Lemma collect_keys (labels : list str) (d : decoder) :
  collect labels (fun chrom => lift (chromosome_key chrom)) d
  = (d, [], all_keys labels).
Proof.
  revert d. induction labels as [|c labels IH]; intros d; [reflexivity|].
  cbn [collect all_keys]. unfold bind, lift.
  destruct (chromosome_key c) as [e|k]; [reflexivity|].
  unfold ret at 1. rewrite IH.
  now destruct (all_keys labels).
Qed.

(** A loop whose body prints one line and neither raises nor changes the
    object. *)
Lemma for_each_prints {A} (body : A -> M unit) (line : A -> out) :
  (forall x d, body x d = (d, [line x], inr tt)) ->
  forall xs d, for_each xs body d = (d, map line xs, inr tt).
Proof.
  intros Hb xs. induction xs as [|x xs IH]; intros d; simpl; [reflexivity|].
  unfold bind. now rewrite Hb, IH.
Qed.

Lemma generate_summary_raises_at_genotypes (self : decoder)
      (ks : list (Z * str)) :
  total_snps self <> 0 ->
  all_keys (keys (chromosome_counts self)) = inr ks ->
  fst (classify (genotype_counts self))
  + snd (classify (genotype_counts self)) = 0 ->
  generate_summary self
  = (self, summary_until_genotypes self ks, inl ZeroDivisionError).
Proof.
  intros Ht Hk Hc. apply Z.eqb_neq in Ht.
  unfold generate_summary.
  cbv beta delta [bind get_self print] iota.
  unfold truediv at 1 2. rewrite Ht. cbv beta delta [ret] iota.
  rewrite collect_keys, Hk.
  rewrite (for_each_prints _
             (fun kc =>
                ChrRow (snd kc) (count_of (chromosome_counts self) (snd kc))
                  (inject_Z (count_of (chromosome_counts self) (snd kc))
                   / inject_Z (total_snps self) * inject_Z 100)%Q)).
  2: { intros x d. unfold truediv. rewrite Ht. reflexivity. }
  destruct (classify (genotype_counts self)) as [h t]. simpl in Hc.
  unfold truediv at 1.
  replace (h + t =? 0) with true by (symmetry; now apply Z.eqb_eq).
  reflexivity.
Qed.

(** C9. There is an input with a positive total on which
    [generate_summary] raises [ZeroDivisionError] at the
    homozygous/heterozygous percentage: the two totals are both zero, the
    divisions by the total have succeeded, and the last line printed is
    the heading of the genotype section.  It is so whenever the two totals
    are zero with a total that is not, the chromosome labels converting. *)
Theorem all_no_call_summary_raises :
  (exists f : list str,
     let self := state_of (parse_genome_file f (init (lit "genome.txt"))) in
     0 < total_snps self
     /\ classify (genotype_counts self) = (0, 0)
     /\ raised (generate_summary self) = Some ZeroDivisionError
     /\ last (printed (generate_summary self)) Searching
        = Heading "GENOTYPE DISTRIBUTION")
  /\ (forall (self : decoder) (ks : list (Z * str)),
        total_snps self <> 0 ->
        all_keys (keys (chromosome_counts self)) = inr ks ->
        classify (genotype_counts self) = (0, 0) ->
        generate_summary self
        = (self, summary_until_genotypes self ks, inl ZeroDivisionError)).
Proof.
  split.
  - exists [data_line (lit "rs1") (lit "1") (lit "100") (lit "--");
            data_line (lit "rs2") (lit "X") (lit "200") (lit "--")].
    repeat split.
  - intros self ks Ht Hk Hc.
    apply generate_summary_raises_at_genotypes; auto.
    now rewrite Hc.
Qed.

(* ================================================================= *)
(** ** The skip rule *)





(* ================================================================= *)
(** ** The order of the chromosome rows *)

Lemma key_ltb_true (a b : Z * str) :
  key_ltb a b = true
  <-> fst a < fst b
      \/ (fst a = fst b /\ str_compare (snd a) (snd b) = Lt).
Proof.
  unfold key_ltb.
  rewrite orb_true_iff, andb_true_iff, Z.ltb_lt, Z.eqb_eq.
  destruct (str_compare (snd a) (snd b)); intuition discriminate.
Qed.

Lemma key_ltb_false (a b : Z * str) :
  key_ltb a b = false
  <-> fst b < fst a
      \/ (fst a = fst b /\ str_compare (snd a) (snd b) <> Lt).
Proof.
  rewrite <- not_true_iff_false, key_ltb_true. split.
  - intros H. destruct (Z.lt_trichotomy (fst a) (fst b)) as [L|[E|G]].
    + exfalso. apply H. now left.
    + right. split; [exact E|]. intros C. apply H. now right.
    + now left.
  - intros [G|[E N]] [L|[E' C]]; try lia. contradiction.
Qed.

Lemma key_ltb_irrefl (k : Z * str) : key_ltb k k = false.
Proof.
  apply key_ltb_false. right. split; [reflexivity|].
  now rewrite str_compare_refl.
Qed.

Lemma key_ltb_trans (a b c : Z * str) :
  key_ltb a b = true -> key_ltb b c = true -> key_ltb a c = true.
Proof.
  rewrite !key_ltb_true. intros [H1|[H1 S1]] [H2|[H2 S2]]; try (left; lia).
  right. split; [lia|]. eapply str_compare_lt_trans; eauto.
Qed.

Lemma key_ltb_asym (a b : Z * str) :
  key_ltb a b = true -> key_ltb b a = false.
Proof.
  intros H. destruct (key_ltb b a) eqn:E; [|reflexivity].
  pose proof (key_ltb_trans _ _ _ H E) as T.
  now rewrite key_ltb_irrefl in T.
Qed.

(** Two tuples neither of which is before the other are the same. *)
Lemma key_ltb_total (a b : Z * str) :
  key_ltb a b = false -> key_ltb b a = false -> a = b.
Proof.
  rewrite !key_ltb_false. destruct a as [x s], b as [y t]. simpl.
  intros [H1|[H1 S1]] [H2|[H2 S2]]; try lia.
  subst y. f_equal. rewrite (str_compare_antisym s t) in S2.
  destruct (str_compare s t) eqn:E; try (now elim S1); try (now elim S2).
  now apply str_compare_eq.
Qed.

Lemma key_le_trans (a b c : Z * str) :
  key_le a b -> key_le b c -> key_le a c.
Proof.
  unfold key_le. intros H1 H2.
  destruct (key_ltb c a) eqn:E; [|reflexivity].
  destruct (key_ltb a b) eqn:E2.
  - pose proof (key_ltb_trans _ _ _ E E2) as T. congruence.
  - assert (a = b) by now apply key_ltb_total. subst. congruence.
Qed.

Lemma insert_key_perm (x : Z * str) (l : list (Z * str)) :
  Permutation (insert_key x l) (x :: l).
Proof.
  induction l as [|y l IH]; simpl; [reflexivity|].
  destruct (key_ltb y x); [|reflexivity].
  rewrite IH. apply perm_swap.
Qed.

Lemma sort_keys_perm (l : list (Z * str)) : Permutation (sort_keys l) l.
Proof.
  unfold sort_keys. induction l as [|x l IH]; simpl; [reflexivity|].
  now rewrite insert_key_perm, IH.
Qed.

Lemma insert_key_sorted (x : Z * str) (l : list (Z * str)) :
  StronglySorted key_le l -> StronglySorted key_le (insert_key x l).
Proof.
  induction l as [|y l IH]; simpl; intros H.
  - repeat constructor.
  - inversion H as [|? ? Hs Hf]; subst.
    destruct (key_ltb y x) eqn:E.
    + constructor; [auto|].
      apply (Permutation_Forall (Permutation_sym (insert_key_perm x l))).
      constructor; [|exact Hf]. now apply key_ltb_asym.
    + constructor; [exact H|]. constructor; [exact E|].
      eapply Forall_impl; [|exact Hf].
      intros z Hz. now apply key_le_trans with y.
Qed.

Lemma sort_keys_sorted (l : list (Z * str)) :
  StronglySorted key_le (sort_keys l).
Proof.
  unfold sort_keys. induction l as [|x l IH]; simpl;
    [constructor|now apply insert_key_sorted].
Qed.

(** There is one sorted arrangement of a list of tuples. *)
Lemma sorted_unique (l1 l2 : list (Z * str)) :
  StronglySorted key_le l1 -> StronglySorted key_le l2 ->
  Permutation l1 l2 -> l1 = l2.
Proof.
  revert l2. induction l1 as [|x l1 IH]; intros l2 H1 H2 P.
  - now apply Permutation_nil in P.
  - destruct l2 as [|y l2].
    { apply Permutation_sym, Permutation_nil in P. discriminate. }
    inversion H1 as [|? ? Hs1 Hf1]; inversion H2 as [|? ? Hs2 Hf2]; subst.
    assert (E : x = y).
    { assert (Hx : In x (y :: l2))
        by (apply (Permutation_in _ P); now left).
      assert (Hy : In y (x :: l1))
        by (apply (Permutation_in _ (Permutation_sym P)); now left).
      destruct Hx as [Hx|Hx]; [congruence|].
      destruct Hy as [Hy|Hy]; [congruence|].
      rewrite Forall_forall in Hf1, Hf2.
      apply key_ltb_total; [apply (Hf2 _ Hx)|apply (Hf1 _ Hy)]. }
    subst y. f_equal. apply IH; auto.
    now apply Permutation_cons_inv in P.
Qed.

Lemma numeric_label_key (c : str) (n : Z) :
  numeric_label c n -> chromosome_key c = inr (n, c).
Proof. intros [H1 H2]. unfold chromosome_key. now rewrite H1, H2. Qed.

Lemma other_label_key (c : str) :
  isdigit c = false -> c <> lit "X" -> c <> lit "Y" ->
  chromosome_key c = inr (102, c).
Proof.
  intros H HX HY. unfold chromosome_key. rewrite H.
  apply str_eqb_neq in HX, HY. now rewrite HX, HY.
Qed.

(** C6, the claim as stated fails: the label [23] is none of [1] to [22],
    [X] and [Y], and it sorts before [X], hence not after [Y]. *)
Lemma label_23_sorts_before_X :
  existsb (str_eqb (lit "23")) (lit "X" :: lit "Y" :: map fst autosomes)
  = false
  /\ chromosome_key (lit "23") = inr (23, lit "23")
  /\ chromosome_key (lit "X") = inr (100, lit "X")
  /\ chromosome_key (lit "Y") = inr (101, lit "Y")
  /\ key_ltb (23, lit "23") (100, lit "X") = true
  /\ key_ltb (101, lit "Y") (23, lit "23") = false
  /\ sort_keys [(101, lit "Y"); (23, lit "23"); (100, lit "X")]
     = [(23, lit "23"); (100, lit "X"); (101, lit "Y")].
Proof. repeat split. Qed.

(** C6, amended. Labels made of digits sort ascending by their integer
    value, and [1] to [22] are such labels; [X] sorts after every such
    label whose value is below 100; [Y] sorts after [X]; every label that
    is not made of digits and is neither [X] nor [Y] sorts after [Y]; so
    2 < 10 < X < Y < MT.  The comparison is a strict total order on the
    tuples, and the sorted rows are the one ascending arrangement of the
    tuples, whatever the order in which the labels were first seen. *)
Theorem chromosome_order :
  (forall a b na nb,
      numeric_label a na -> numeric_label b nb -> na < nb ->
      sorts_before a b)
  /\ (forall c n, In (c, n) autosomes -> numeric_label c n)
  /\ (forall a na, numeric_label a na -> na < 100 ->
                   sorts_before a (lit "X"))
  /\ sorts_before (lit "X") (lit "Y")
  /\ (forall c, isdigit c = false -> c <> lit "X" -> c <> lit "Y" ->
                sorts_before (lit "Y") c)
  /\ (sorts_before (lit "2") (lit "10")
      /\ sorts_before (lit "10") (lit "X")
      /\ sorts_before (lit "Y") (lit "MT"))
  /\ ((forall k, key_ltb k k = false)
      /\ (forall k1 k2 k3, key_ltb k1 k2 = true -> key_ltb k2 k3 = true ->
                           key_ltb k1 k3 = true)
      /\ (forall k1 k2, k1 <> k2 ->
                        key_ltb k1 k2 = true \/ key_ltb k2 k1 = true))
  /\ (forall ks, Permutation (sort_keys ks) ks
                 /\ StronglySorted key_le (sort_keys ks))
  /\ (forall ks ks', Permutation ks ks' -> sort_keys ks = sort_keys ks').
Proof.
  assert (HX : chromosome_key (lit "X") = inr (100, lit "X")) by reflexivity.
  assert (HY : chromosome_key (lit "Y") = inr (101, lit "Y")) by reflexivity.
  repeat apply conj.
  - intros a b na nb Ha Hb Hlt.
    exists (na, a), (nb, b). repeat split; try now apply numeric_label_key.
    apply key_ltb_true. now left.
  - intros c n Hin. unfold autosomes in Hin. simpl in Hin.
    repeat (destruct Hin as [Hin|Hin];
            [injection Hin as <- <-; now split|]).
    destruct Hin.
  - intros a na Ha Hlt. exists (na, a), (100, lit "X").
    repeat split; try now apply numeric_label_key.
    apply key_ltb_true. now left.
  - now exists (100, lit "X"), (101, lit "Y").
  - intros c Hd Hx Hy. exists (101, lit "Y"), (102, c).
    repeat split. now apply other_label_key.
  - now exists (2, lit "2"), (10, lit "10").
  - now exists (10, lit "10"), (100, lit "X").
  - now exists (101, lit "Y"), (102, lit "MT").
  - apply key_ltb_irrefl.
  - apply key_ltb_trans.
  - intros k1 k2 Hne.
    destruct (key_ltb k1 k2) eqn:E1; [now left|].
    destruct (key_ltb k2 k1) eqn:E2; [now right|].
    exfalso. apply Hne. now apply key_ltb_total.
  - intros ks. split; [apply sort_keys_perm|apply sort_keys_sorted].
  - intros ks ks' P. apply sorted_unique; try apply sort_keys_sorted.
    now rewrite !sort_keys_perm.
Qed.

Lemma chromosome_order_witness :
  sorts_before (lit "7") (lit "19")
  /\ sorts_before (lit "22") (lit "X")
  /\ sorts_before (lit "Y") (lit "MT")
  /\ sort_keys [(101, lit "Y"); (10, lit "10"); (102, lit "MT");
                (2, lit "2"); (100, lit "X")]
     = sort_keys [(2, lit "2"); (10, lit "10"); (100, lit "X");
                  (101, lit "Y"); (102, lit "MT")].
Proof.
  destruct chromosome_order
    as (Hnum & Haut & HX & _ & Hother & _ & _ & _ & Hperm).
  repeat apply conj.
  - apply (Hnum (lit "7") (lit "19") 7 19);
      [apply Haut; simpl; tauto | apply Haut; simpl; tauto | reflexivity].
  - apply (HX (lit "22") 22); [apply Haut; simpl; tauto | reflexivity].
  - apply Hother; [reflexivity | discriminate | discriminate].
  - apply Hperm.
    change (Permutation
              [(101, lit "Y"); (10, lit "10"); (102, lit "MT");
               (2, lit "2"); (100, lit "X")]
              (sort_keys [(101, lit "Y"); (10, lit "10"); (102, lit "MT");
                          (2, lit "2"); (100, lit "X")])).
    apply Permutation_sym, sort_keys_perm.
Defined.

(* ================================================================= *)
(** ** [analyze_specific_snps] *)

Lemma find_snps_snoc (l : list snp) (s : snp) :
  find_snps (l ++ [s]) = find_step (find_snps l) s.
Proof. unfold find_snps. now rewrite fold_left_app. Qed.

Lemma last_with_snoc (id : str) (l : list snp) (s : snp) :
  last_with id (l ++ [s])
  = if str_eqb (rsid s) id then Some s else last_with id l.
Proof. unfold last_with. now rewrite rev_app_distr. Qed.

(** A marker is absent exactly when no record carries its identifier. *)
Lemma last_with_none (id : str) (l : list snp) :
  last_with id l = None <-> (forall s, In s l -> rsid s <> id).
Proof.
  unfold last_with. split.
  - intros H s Hin E. apply in_rev in Hin.
    apply (find_none _ _ H) in Hin. apply str_eqb_neq in Hin. contradiction.
  - intros H. destruct (find _ (rev l)) as [s|] eqn:F; [|reflexivity].
    apply find_some in F as [Hin E]. apply in_rev in Hin.
    apply str_eqb_eq in E. now apply H in Hin.
Qed.

Lemma is_apoe_cases (id : str) :
  is_apoe id = true -> id = rs429358 \/ id = rs7412.
Proof.
  unfold is_apoe. cbn [existsb].
  destruct (str_eqb id rs429358) eqn:E1; [apply str_eqb_eq in E1; auto|].
  destruct (str_eqb id rs7412) eqn:E2; [apply str_eqb_eq in E2; auto|].
  discriminate.
Qed.

Lemma is_apoe_interesting (id : str) :
  is_apoe id = true -> contains interesting_snps id = true.
Proof. intros H. now destruct (is_apoe_cases id H); subst. Qed.

(** [found_snps] holds, for each notable identifier, the last record
    that carries it. *)
Lemma found_get (l : list snp) (id : str) :
  get (fst (find_snps l)) id
  = if contains interesting_snps id then last_with id l else None.
Proof.
  induction l as [|s l IH] using rev_ind.
  - simpl. now destruct (contains interesting_snps id).
  - rewrite find_snps_snoc, last_with_snoc.
    destruct (find_snps l) as [found apoe]. simpl in IH.
    unfold find_step.
    destruct (contains interesting_snps (rsid s)) eqn:C.
    + assert (E : get (set found (rsid s) s) id
                  = if contains interesting_snps id
                    then if str_eqb (rsid s) id then Some s
                         else last_with id l
                    else None).
      { destruct (str_eqb (rsid s) id) eqn:Eq.
        - apply str_eqb_eq in Eq. subst id. now rewrite get_set_same, C.
        - apply str_eqb_neq in Eq. now rewrite get_set_other. }
      now destruct (is_apoe (rsid s)).
    + simpl. rewrite IH.
      destruct (str_eqb (rsid s) id) eqn:Eq; [|reflexivity].
      apply str_eqb_eq in Eq. subst id. now rewrite C.
Qed.

(** [apoe_snps] holds, for each of the two APOE identifiers, the genotype
    of the last record that carries it. *)
Lemma apoe_get (l : list snp) (id : str) :
  get (snd (find_snps l)) id
  = if is_apoe id then option_map genotype (last_with id l) else None.
Proof.
  induction l as [|s l IH] using rev_ind.
  - simpl. now destruct (is_apoe id).
  - rewrite find_snps_snoc, last_with_snoc.
    destruct (find_snps l) as [found apoe]. simpl in IH.
    unfold find_step.
    destruct (contains interesting_snps (rsid s)) eqn:C.
    + destruct (is_apoe (rsid s)) eqn:A; simpl.
      * destruct (str_eqb (rsid s) id) eqn:Eq.
        -- apply str_eqb_eq in Eq. subst id. now rewrite get_set_same, A.
        -- apply str_eqb_neq in Eq. now rewrite get_set_other.
      * rewrite IH. destruct (str_eqb (rsid s) id) eqn:Eq; [|reflexivity].
        apply str_eqb_eq in Eq. subst id. now rewrite A.
    + simpl. rewrite IH.
      destruct (str_eqb (rsid s) id) eqn:Eq; [|reflexivity].
      apply str_eqb_eq in Eq. subst id.
      destruct (is_apoe (rsid s)) eqn:A; [|reflexivity].
      apply is_apoe_interesting in A. congruence.
Qed.

Lemma found_nodup (l : list snp) : NoDup (keys (fst (find_snps l))).
Proof.
  induction l as [|s l IH] using rev_ind; [constructor|].
  rewrite find_snps_snoc. destruct (find_snps l) as [found apoe].
  simpl in IH. unfold find_step.
  destruct (contains interesting_snps (rsid s)); [|exact IH].
  destruct (is_apoe (rsid s)); simpl; now apply keys_set_nodup.
Qed.

Lemma found_in (l : list snp) (id : str) (s : snp) :
  In (id, s) (fst (find_snps l)) ->
  contains interesting_snps id = true /\ last_with id l = Some s.
Proof.
  intros Hin. apply (get_in_nodup _ _ _ (found_nodup l)) in Hin.
  rewrite found_get in Hin.
  now destruct (contains interesting_snps id).
Qed.

Lemma apoe_line_in_table (g1 g2 : str) (t : apoe_type) :
  In (g1, g2, t) apoe_table -> apoe_line g1 g2 = ApoeType t.
Proof.
  unfold apoe_table. simpl.
  intros H. repeat (destruct H as [H|H]; [now injection H as <- <- <-|]).
  destruct H.
Qed.

Lemma apoe_line_not_in_table (g1 g2 : str) :
  (forall t, ~ In (g1, g2, t) apoe_table) -> apoe_line g1 g2 = ApoeUnable.
Proof.
  intros H. unfold apoe_line, apoe_lookup.
  destruct (find _ apoe_table) as [[[a b] t]|] eqn:F; [|reflexivity].
  apply find_some in F as [Hin Hp]. simpl in Hp.
  apply andb_true_iff in Hp as [Ha Hb].
  apply str_eqb_eq in Ha, Hb. subst. now apply H in Hin.
Qed.

(** Lines 175 to 197 on a dictionary [apoe_snps]. *)
Lemma report_apoe_run (apoe_snps : dict str) (d : decoder) :
  report_apoe apoe_snps d
  = (d,
     match get apoe_snps rs429358, get apoe_snps rs7412 with
     | Some a, Some b => [ApoeStatus; ApoeGenotypes a b; apoe_line a b]
     | None, None => []
     | _, _ => [ApoeIncomplete]
     end,
     inr tt).
Proof.
  unfold report_apoe, contains, subscript.
  destruct (get apoe_snps rs429358) as [a|], (get apoe_snps rs7412) as [b|];
    try reflexivity.
  unfold apoe_line, apoe_lookup, apoe_table.
  cbn [find fst snd option_map andb orb].
  unfold bind, print, ret. cbn [app].
  destruct (str_eqb a (lit "TT")), (str_eqb a (lit "CT")),
    (str_eqb a (lit "CC")), (str_eqb b (lit "TT")), (str_eqb b (lit "CT")),
    (str_eqb b (lit "CC")); reflexivity.
Qed.

Lemma apoe_block_run (l : list snp) (d : decoder) :
  report_apoe (snd (find_snps l)) d = (d, apoe_block l, inr tt).
Proof.
  rewrite report_apoe_run, !apoe_get. unfold apoe_block.
  change (is_apoe rs429358) with true. change (is_apoe rs7412) with true.
  now destruct (last_with rs429358 l), (last_with rs7412 l).
Qed.

(** Lines 167 to 173 on one entry of [found_snps]. *)
Lemma report_marker_run (id : str) (s : snp) (d : decoder) :
  contains interesting_snps id = true ->
  exists o,
    report_marker (id, s) d
    = (d, o, if marker_raises (id, s) then inl ValueError else inr tt)
    /\ filter is_apoe_out o = [].
Proof.
  intros H. unfold report_marker, marker_raises, subscript, contains in *.
  cbn [fst snd].
  destruct (is_apoe id); cbn [negb andb]; [now exists []|].
  destruct (get interesting_snps id) as [label|]; [|discriminate].
  unfold bind, print, ret, format_comma.
  destruct (position s) as [n|raw]; [|now eexists].
  destruct (get genotype_interpretations id) as [table|];
    [destruct (get table (genotype s))|]; now eexists.
Qed.

(** Lines 166 to 173. *)
Lemma report_markers_run (found : list (str * snp)) (d : decoder) :
  (forall id s, In (id, s) found -> contains interesting_snps id = true) ->
  exists o,
    for_each found report_marker d
    = (d, o, if existsb marker_raises found then inl ValueError else inr tt)
    /\ filter is_apoe_out o = [].
Proof.
  induction found as [|[id s] found IH]; intros H; [now exists []|].
  destruct (report_marker_run id s d) as (o1 & E1 & F1);
    [apply (H id s); now left|].
  destruct IH as (o2 & E2 & F2); [intros; eapply H; right; eauto|].
  cbn [for_each existsb]. unfold bind. rewrite E1.
  destruct (marker_raises (id, s)); cbn [orb]; [now exists o1|].
  rewrite E2. exists (o1 ++ o2). split; [reflexivity|].
  now rewrite filter_app, F1, F2.
Qed.

Lemma found_empty (l : list snp) (id : str) :
  fst (find_snps l) = [] -> is_apoe id = true -> last_with id l = None.
Proof.
  intros E A. pose proof (found_get l id) as G. rewrite E in G. simpl in G.
  now rewrite (is_apoe_interesting id A) in G.
Qed.

(** The whole method: it raises exactly when the report loop meets a
    position kept as a string, and the APOE lines it prints are those of
    the APOE block when it returns, none when it raises. *)
Lemma analyze_run (self : decoder) :
  let r := analyze_specific_snps self in
  state_of r = self
  /\ if existsb marker_raises (items (fst (find_snps (snps self))))
     then raised r = Some ValueError
          /\ filter is_apoe_out (printed r) = []
     else raised r = None
          /\ filter is_apoe_out (printed r) = apoe_block (snps self).
Proof.
  unfold analyze_specific_snps, bind, get_self, print.
  pose proof (apoe_block_run (snps self) self) as B.
  pose proof (fun id s => found_in (snps self) id s) as I.
  pose proof (found_empty (snps self)) as Emp.
  destruct (find_snps (snps self)) as [found apoe]. cbn [fst snd] in *.
  destruct found as [|item found].
  - unfold apoe_block.
    rewrite (Emp rs429358), (Emp rs7412); try reflexivity. now cbn.
  - destruct (report_markers_run (item :: found) self) as (o & E & F).
    { intros id s Hin. now apply I in Hin. }
    unfold items in *. rewrite E.
    destruct (existsb marker_raises (item :: found)).
    + cbn. now rewrite F.
    + rewrite B. cbn. rewrite filter_app, F.
      split; [reflexivity|]. split; [reflexivity|].
      unfold apoe_block.
      destruct (last_with rs429358 (snps self)),
        (last_with rs7412 (snps self)); cbn; try reflexivity.
      unfold apoe_line. now destruct (apoe_lookup _ _).
Qed.

(** C2. The APOE block of the variant interpreter, on the dictionary the
    search loop builds from the records, where a marker occurs when some
    record carries its identifier: when both rs429358 and rs7412 occur it
    prints the status line, the two genotypes and the line of the
    six-case table for that pair, ε2/ε2 for (TT, TT), ε3/ε4 for (CT, CC),
    and the line saying the type cannot be determined for every pair
    outside the table, such as (CC, CT); when exactly one occurs it prints
    the incomplete status and no type; when neither occurs it prints
    nothing.  These are all the APOE lines of the method when it returns,
    which it does unless the report loop before the block meets a
    position kept as a string; and it prints no APOE line at all when
    neither marker occurs. *)
Theorem apoe_resolution (self : decoder) :
  let l := snps self in
  let run := analyze_specific_snps self in
  report_apoe (snd (find_snps l)) self
  = (self,
     match last_with rs429358 l, last_with rs7412 l with
     | Some a, Some b =>
         [ ApoeStatus; ApoeGenotypes (genotype a) (genotype b);
           apoe_line (genotype a) (genotype b) ]
     | None, None => []
     | _, _ => [ApoeIncomplete]
     end,
     inr tt)
  /\ (forall id, last_with id l = None
                 <-> (forall s, In s l -> rsid s <> id))
  /\ (forall g1 g2 t, In (g1, g2, t) apoe_table ->
                      apoe_line g1 g2 = ApoeType t)
  /\ (forall g1 g2, (forall t, ~ In (g1, g2, t) apoe_table) ->
                    apoe_line g1 g2 = ApoeUnable)
  /\ apoe_line (lit "TT") (lit "TT") = ApoeType E2E2
  /\ apoe_line (lit "CT") (lit "CC") = ApoeType E3E4
  /\ apoe_line (lit "CC") (lit "CT") = ApoeUnable
  /\ (raised run = None
      <-> existsb marker_raises (items (fst (find_snps l))) = false)
  /\ (raised run = None -> filter is_apoe_out (printed run) = apoe_block l)
  /\ (last_with rs429358 l = None -> last_with rs7412 l = None ->
      filter is_apoe_out (printed run) = []).
Proof.
  intros l run. pose proof (analyze_run self) as [_ R]. fold run l in R.
  split; [apply (apoe_block_run l self)|].
  split; [intros id; apply last_with_none|].
  split; [apply apoe_line_in_table|].
  split; [apply apoe_line_not_in_table|].
  do 3 (split; [reflexivity|]).
  destruct (existsb marker_raises _); destruct R as [R1 R2]; rewrite R1, R2.
  - split; [split; intros; congruence|].
    split; [intros; congruence|reflexivity].
  - split; [split; reflexivity|]. split; [reflexivity|].
    intros H1 H2. unfold apoe_block. now rewrite H1, H2.
Qed.

Lemma apoe_resolution_witness :
  let self :=
    state_of (parse_genome_file
                [ data_line (lit "rs4680") (lit "22") (lit "19951271")
                    (lit "AG");
                  data_line (lit "rs429358") (lit "19") (lit "45411941")
                    (lit "CT");
                  data_line (lit "rs7412") (lit "19") (lit "45412079")
                    (lit "CC") ]
                (init (lit "genome.txt"))) in
  raised (analyze_specific_snps self) = None
  /\ filter is_apoe_out (printed (analyze_specific_snps self))
     = [ ApoeStatus; ApoeGenotypes (lit "CT") (lit "CC"); ApoeType E3E4 ].
Proof.
  intros self. split; [reflexivity|].
  destruct (apoe_resolution self)
    as (_ & _ & _ & _ & _ & _ & _ & _ & H & _).
  transitivity (apoe_block (snps self)).
  - apply H. vm_compute. reflexivity.
  - vm_compute. reflexivity.
Defined.

(** The report loop raises on a notable marker whose position was kept
    as a string, before the APOE block is reached (line 169). *)
Example string_position_stops_the_report :
  let self :=
    state_of (parse_genome_file
                [ data_line (lit "rs4680") (lit "22") (lit "Un_gl000211")
                    (lit "AG");
                  data_line (lit "rs429358") (lit "19") (lit "45411941")
                    (lit "TT");
                  data_line (lit "rs7412") (lit "19") (lit "45412079")
                    (lit "TT") ]
                (init (lit "genome.txt"))) in
  analyze_specific_snps self
  = (self,
     [ Heading "GENETIC VARIANT ANALYSIS WITH INTERPRETATIONS"; Searching;
       Marker (lit "rs4680") "COMT gene (dopamine metabolism)" ],
     inl ValueError).
Proof. vm_compute. reflexivity. Qed.

(* ================================================================= *)
(** ** Further facts about strings *)

Lemma lstrip_fixed (c : char) (s : str) :
  isspace c = false -> lstrip (c :: s) = c :: s.
Proof. intros H. simpl. now rewrite H. Qed.

(** [lstrip] removes a prefix of whitespace and stops at the first other
    character. *)
Lemma lstrip_split (s : str) :
  exists pre,
    s = pre ++ lstrip s
    /\ Forall (fun c => isspace c = true) pre
    /\ match lstrip s with [] => True | c :: _ => isspace c = false end.
Proof.
  induction s as [|c s (pre & E & F & H)]; [now exists []|].
  simpl. destruct (isspace c) eqn:S.
  - exists (c :: pre). simpl. rewrite <- E. now repeat split; auto.
  - exists []. repeat split; auto.
Qed.

Lemma rstrip_snoc (s : str) (c : char) :
  rstrip (s ++ [c]) = if isspace c then rstrip s else s ++ [c].
Proof.
  unfold rstrip. rewrite rev_app_distr. simpl.
  destruct (isspace c); [reflexivity|]. simpl. now rewrite rev_involutive.
Qed.

(** [rstrip] removes a suffix of whitespace and stops at the last other
    character. *)
Lemma rstrip_split (s : str) :
  exists post,
    s = rstrip s ++ post
    /\ Forall (fun c => isspace c = true) post
    /\ (rstrip s = []
        \/ exists t c, rstrip s = t ++ [c] /\ isspace c = false).
Proof.
  induction s as [|c s (post & E & F & H)] using rev_ind.
  - exists []. repeat split; auto.
  - rewrite rstrip_snoc. destruct (isspace c) eqn:S.
    + exists (post ++ [c]). rewrite app_assoc, <- E. repeat split; auto.
      apply Forall_app. split; auto.
    + exists []. rewrite app_nil_r. repeat split; auto.
      right. now exists s, c.
Qed.

Lemma rstrip_fixed (s : str) (c : char) :
  isspace c = false -> rstrip (s ++ [c]) = s ++ [c].
Proof. intros H. now rewrite rstrip_snoc, H. Qed.

Lemma rstrip_head (c : char) (s : str) :
  isspace c = false -> exists t, rstrip (c :: s) = c :: t.
Proof.
  intros H. induction s as [|d s [t IH]] using rev_ind.
  - exists []. unfold rstrip. simpl. now rewrite H.
  - change (c :: s ++ [d]) with ((c :: s) ++ [d]). rewrite rstrip_snoc.
    destruct (isspace d); [now exists t|]. now exists (s ++ [d]).
Qed.

(** A stripped line is empty, or starts and ends with characters that are
    not whitespace. *)
Lemma strip_ends (s : str) :
  strip s = []
  \/ (exists c t, strip s = c :: t /\ isspace c = false)
     /\ (exists t c, strip s = t ++ [c] /\ isspace c = false).
Proof.
  unfold strip. destruct (lstrip_split s) as (pre & _ & _ & H).
  destruct (lstrip s) as [|c u]; [now left|].
  right. destruct (rstrip_head c u H) as [t E]. split.
  - now exists c, t.
  - destruct (rstrip_split (c :: u)) as (_ & _ & _ & [R|R]); [|exact R].
    rewrite E in R. discriminate.
Qed.

Lemma split_tab_free (f : str) : tab_free f -> split tab f = [f].
Proof.
  unfold tab_free. induction f as [|x f IH]; intros H; [reflexivity|].
  simpl. destruct (N.eqb x tab) eqn:E.
  - apply N.eqb_eq in E. subst. exfalso. apply H. now left.
  - rewrite IH; [reflexivity|]. intros Hin. apply H. now right.
Qed.

Lemma split_app_tab (f rest : str) :
  tab_free f -> split tab (f ++ tab :: rest) = f :: split tab rest.
Proof.
  unfold tab_free. induction f as [|x f IH]; intros H; [reflexivity|].
  simpl. destruct (N.eqb x tab) eqn:E.
  - apply N.eqb_eq in E. subst. exfalso. apply H. now left.
  - rewrite IH; [reflexivity|]. intros Hin. apply H. now right.
Qed.

(** The fields [split] returns hold no separator, and joined by the
    separator they give the string back. *)
Lemma split_inv (s f : str) (fs : list str) :
  split tab s = f :: fs ->
  tab_free f
  /\ ((fs = [] /\ s = f)
      \/ exists s', s = f ++ tab :: s' /\ split tab s' = fs).
Proof.
  unfold tab_free. revert f fs.
  induction s as [|x s IH]; intros f fs H; simpl in H.
  - injection H as <- <-. split; [intros []|now left].
  - destruct (N.eqb x tab) eqn:E.
    + injection H as <- <-. apply N.eqb_eq in E. subst.
      split; [intros []|]. right. now exists s.
    + destruct (split tab s) as [|g gs] eqn:S.
      { apply (f_equal (@List.length str)) in S.
        rewrite split_length in S. discriminate. }
      injection H as <- <-. destruct (IH g gs eq_refl) as [T D]. split.
      * intros [->|Hin]; [now rewrite N.eqb_refl in E|now apply T].
      * destruct D as [[-> ->]|(s' & -> & S')]; [now left|].
        right. now exists s'.
Qed.

Lemma startswith_app (s p rest : str) :
  startswith s p = true -> startswith (s ++ rest) p = true.
Proof.
  revert p. induction s as [|x s IH]; intros [|y p] H; simpl in *;
    try reflexivity; try discriminate.
  - now destruct rest.
  - apply andb_true_iff in H as [H1 H2]. rewrite H1. simpl. auto.
Qed.

Lemma startswith_nil (s : str) : startswith s [] = true.
Proof. now destruct s. Qed.

(** A prefix without tab of a line is a prefix of its first field. *)
Lemma startswith_field (r rest p : str) :
  tab_free p ->
  startswith (r ++ tab :: rest) p = true -> startswith r p = true.
Proof.
  unfold tab_free. revert p.
  induction r as [|x r IH]; intros [|y p] T H;
    cbn [startswith app] in H |- *; try reflexivity.
  - apply andb_true_iff in H as [H _]. apply N.eqb_eq in H. subst.
    exfalso. apply T. now left.
  - apply andb_true_iff in H as [H1 H2]. rewrite H1. simpl.
    apply IH; [|exact H2]. intros Hin. apply T. now right.
Qed.

Lemma startswith_field_false (r rest p : str) :
  tab_free p ->
  startswith r p = false -> startswith (r ++ tab :: rest) p = false.
Proof.
  intros T H. destruct (startswith (r ++ tab :: rest) p) eqn:S;
    [|reflexivity].
  apply startswith_field in S; [congruence|exact T].
Qed.

Lemma lstrip_fixed_head (r : str) :
  r <> [] -> lstrip r = r -> exists x r', r = x :: r' /\ isspace x = false.
Proof.
  intros N E. destruct (lstrip_split r) as (_ & _ & _ & H).
  rewrite E in H. destruct r as [|x r']; [contradiction|]. now exists x, r'.
Qed.

Lemma rstrip_fixed_last (g : str) :
  g <> [] -> rstrip g = g -> exists g' y, g = g' ++ [y] /\ isspace y = false.
Proof.
  intros N E. destruct (rstrip_split g) as (_ & _ & _ & [H|H]).
  - rewrite E in H. contradiction.
  - now rewrite E in H.
Qed.

(** Stripping a line terminated by a newline whose content starts and
    ends with characters that are not whitespace gives the content. *)
Lemma strip_line (x y : char) (mid : str) :
  isspace x = false -> isspace y = false ->
  strip ((x :: mid ++ [y]) ++ [10%N]) = x :: mid ++ [y].
Proof.
  intros Hx Hy. unfold strip. simpl lstrip. rewrite Hx.
  change (x :: (mid ++ [y]) ++ [10%N])
    with ((x :: mid ++ [y]) ++ [10%N]).
  rewrite rstrip_snoc. change (isspace 10%N) with true. cbv iota.
  change (x :: mid ++ [y]) with ((x :: mid) ++ [y]).
  now apply rstrip_fixed.
Qed.

Lemma strip_data_line (r c p g : str) :
  field_shape r c p g ->
  strip (data_line r c p g) = r ++ tab :: c ++ tab :: p ++ tab :: g.
Proof.
  intros (_ & _ & _ & _ & Nr & Lr & _ & _ & Ng & Rg).
  destruct (lstrip_fixed_head r Nr Lr) as (x & r' & -> & Hx).
  destruct (rstrip_fixed_last g Ng Rg) as (g' & y & -> & Hy).
  unfold data_line.
  replace ((x :: r') ++ [tab] ++ c ++ [tab] ++ p ++ [tab] ++ (g' ++ [y])
           ++ [10%N])
    with ((x :: (r' ++ tab :: c ++ tab :: p ++ tab :: g') ++ [y])
          ++ [10%N])
    by (simpl; repeat (rewrite <- app_assoc; simpl); reflexivity).
  rewrite (strip_line x y _ Hx Hy).
  simpl. repeat (rewrite <- app_assoc; simpl). reflexivity.
Qed.

(** X1. A data line built from four fields that hold no tab, with a
    marker identifier that is not empty and starts with no whitespace,
    [#] or [rsid], and a genotype that is not empty and ends with no
    whitespace, is kept as the record of exactly these fields, whenever
    its position converts. *)
Theorem data_line_parses_to_its_record
        (self : decoder) (r c p g : str) (pos : position_t) :
  field_shape r c p g ->
  position_of p = inr pos ->
  parse_line (data_line r c p g) self
  = (with_snp self (mkSnp r c pos g), [], inr tt).
Proof.
  intros F Hp. pose proof (strip_data_line r c p g F) as E.
  destruct F as (Tr & Tc & Tp & Tg & Nr & Lr & H1 & H2 & Ng & Rg).
  unfold parse_line. rewrite E.
  assert (S1 : startswith (r ++ tab :: c ++ tab :: p ++ tab :: g) (lit "#")
               = false).
  { apply startswith_field_false; [|exact H1].
    intros [D|[]]. discriminate. }
  assert (S2 : startswith (r ++ tab :: c ++ tab :: p ++ tab :: g)
                 (lit "rsid") = false).
  { apply startswith_field_false; [|exact H2].
    intros [D|[D|[D|[D|[]]]]]; discriminate. }
  rewrite S1, S2.
  replace (str_eqb (r ++ tab :: c ++ tab :: p ++ tab :: g) []) with false
    by (destruct r; [contradiction|reflexivity]).
  cbn [orb].
  rewrite !split_app_tab, split_tab_free by assumption.
  unfold bind, lift. rewrite Hp. unfold ret.
  now rewrite record_snp_run.
Qed.

Lemma data_line_parses_to_its_record_witness :
  parse_line
    (data_line (lit "rs4680") (lit "22") (lit "19951271") (lit "AG"))
    (init [])
  = (with_snp (init [])
       (mkSnp (lit "rs4680") (lit "22") (PosInt 19951271) (lit "AG")),
     [], inr tt).
Proof.
  apply data_line_parses_to_its_record; [|reflexivity].
  unfold field_shape, tab_free.
  repeat split; try discriminate;
    intros H; simpl in H; repeat (destruct H as [H|H]; [discriminate|]);
    exact H.
Defined.

(* ================================================================= *)
(** ** The records the parsing pass keeps *)

(** The four fields of a line that is neither skipped nor discarded. *)
Lemma kept_fields_shape (raw r c p g : str) :
  split tab (strip raw) = [r; c; p; g] ->
  startswith (strip raw) (lit "#") = false ->
  startswith (strip raw) (lit "rsid") = false ->
  field_shape r c p g.
Proof.
  intros S H1 H2.
  destruct (split_inv _ _ _ S) as [Tr [[D _]|(s1 & E1 & S1)]];
    [discriminate|].
  destruct (split_inv _ _ _ S1) as [Tc [[D _]|(s2 & E2 & S2)]];
    [discriminate|].
  destruct (split_inv _ _ _ S2) as [Tp [[D _]|(s3 & E3 & S3)]];
    [discriminate|].
  destruct (split_inv _ _ _ S3) as [Tg [[_ E4]|(s4 & _ & S4)]].
  2: { apply (f_equal (@List.length str)) in S4.
       rewrite split_length in S4. discriminate. }
  subst s3 s2 s1.
  destruct (strip_ends raw) as [Z|[(x & t & Ex & Hx) (u & y & Ey & Hy)]].
  { rewrite Z in E1. now destruct r. }
  assert (Nr : r <> []).
  { intros ->. rewrite E1 in Ex. injection Ex as <- _. discriminate. }
  assert (Ng : g <> []).
  { intros ->. rewrite E1 in Ey.
    replace (r ++ tab :: c ++ tab :: p ++ [tab])
      with ((r ++ tab :: c ++ tab :: p) ++ [tab]) in Ey
      by (repeat (rewrite <- app_assoc; simpl); reflexivity).
    apply app_inj_tail in Ey as [_ <-]. discriminate. }
  repeat split; auto.
  - destruct r as [|x' r']; [contradiction|].
    rewrite E1 in Ex. injection Ex as -> _. now apply lstrip_fixed.
  - destruct (startswith r (lit "#")) eqn:A; [|reflexivity].
    rewrite E1 in H1. now rewrite (startswith_app _ _ _ A) in H1.
  - destruct (startswith r (lit "rsid")) eqn:A; [|reflexivity].
    rewrite E1 in H2. now rewrite (startswith_app _ _ _ A) in H2.
  - destruct (exists_last Ng) as (g' & y' & ->).
    rewrite E1 in Ey.
    replace (r ++ tab :: c ++ tab :: p ++ tab :: g' ++ [y'])
      with ((r ++ tab :: c ++ tab :: p ++ tab :: g') ++ [y']) in Ey
      by (repeat (rewrite <- app_assoc; simpl); reflexivity).
    apply app_inj_tail in Ey as [_ ->]. now apply rstrip_fixed.
Qed.

(** One iteration of the parsing loop, with the record it keeps. *)
Lemma parse_line_outcome (raw : str) (d : decoder) :
  parse_line raw d = (d, [], inr tt)
  \/ parse_line raw d = (d, [], inl ValueError)
  \/ exists r c p g pos,
       field_shape r c p g
       /\ split tab (strip raw) = [r; c; p; g]
       /\ position_of p = inr pos
       /\ parse_line raw d = (with_snp d (mkSnp r c pos g), [], inr tt).
Proof.
  unfold parse_line.
  destruct (startswith (strip raw) (lit "#")) eqn:H1; [now left|].
  destruct (str_eqb (strip raw) []); [now left|]. cbn [orb].
  destruct (startswith (strip raw) (lit "rsid")) eqn:H2; [now left|].
  destruct (split tab (strip raw)) as [|r [|c [|p [|g [|x fs]]]]] eqn:S;
    try (now left).
  destruct (position_of p) as [e|pos] eqn:E.
  - apply position_of_error in E. subst. right; left. reflexivity.
  - right; right. exists r, c, p, g, pos.
    split; [now apply (kept_fields_shape raw r c p g)|].
    split; [reflexivity|]. split; [exact E|].
    unfold bind, lift, ret. now rewrite record_snp_run.
Qed.

Lemma digits_value_nonneg (s : str) (acc n : Z) :
  0 <= acc -> digits_value acc s = Some n -> 0 <= n.
Proof.
  revert acc. induction s as [|c s IH]; intros acc H E; simpl in E.
  - congruence.
  - destruct (decimal_value c) as [d|]; [|discriminate].
    apply (IH (10 * acc + Z.of_N d)); [lia|exact E].
Qed.

Lemma position_of_shape (p : str) (pos : position_t) :
  tab_free p -> position_of p = inr pos -> position_shape pos.
Proof.
  unfold position_of, int. intros T.
  destruct (isdigit p) eqn:D.
  - destruct (digits_value 0 p) as [n|] eqn:V; [|discriminate].
    destruct (int_max_str_digits <? _); [discriminate|].
    intros E. injection E as <-. simpl.
    now apply (digits_value_nonneg p 0 n).
  - intros E. injection E as <-. now split.
Qed.

(** X2. Every record the parsing pass keeps, on any input, comes from
    four fields without tab: its marker identifier is not empty and
    starts with no whitespace, [#] or [rsid], its genotype is not empty
    and ends with no whitespace, and its position is an integer that is
    not negative or a string that did not pass [isdigit]. *)
Theorem kept_records_shape (file : str) (f : list str) :
  Forall (fun s => record_shape s /\ position_shape (position s))
         (snps (state_of (parse_genome_file f (init file)))).
Proof.
  rewrite parse_genome_file_state.
  apply (for_each_state
           (fun d => Forall (fun s => record_shape s
                                      /\ position_shape (position s))
                            (snps d))); [|constructor].
  intros raw d H.
  destruct (parse_line_outcome raw d)
    as [E|[E|(r & c & p & g & pos & F & _ & P & E)]];
    rewrite E; unfold state_of; simpl; auto.
  apply Forall_app. split; [exact H|]. constructor; [|constructor].
  split.
  - now exists p.
  - simpl. apply (position_of_shape p); [|exact P].
    now destruct F as (_ & _ & Tp & _).
Qed.

(* ================================================================= *)
(** ** The keys of the counters *)

Lemma contains_keys {V} (d : dict V) (k : str) :
  contains d k = existsb (fun y => str_eqb y k) (keys d).
Proof.
  unfold contains, keys. induction d as [|[k' v] d IH]; simpl; auto.
  now destruct (str_eqb k' k).
Qed.

(** Assigning to a key keeps the keys in place and appends a new one. *)
Lemma keys_set {V} (d : dict V) (k : str) (v : V) :
  keys (set d k v) = if contains d k then keys d else keys d ++ [k].
Proof.
  unfold contains, keys. induction d as [|[k' v'] d IH]; simpl; auto.
  destruct (str_eqb k' k); simpl; [reflexivity|].
  rewrite IH. now destruct (get d k).
Qed.

Lemma first_seen_snoc (l : list str) (x : str) :
  first_seen (l ++ [x])
  = if existsb (fun y => str_eqb y x) (first_seen l) then first_seen l
    else first_seen l ++ [x].
Proof. unfold first_seen. now rewrite fold_left_app. Qed.

Lemma existsb_str_eqb (l : list str) (x : str) :
  existsb (fun y => str_eqb y x) l = true <-> In x l.
Proof.
  rewrite existsb_exists. split.
  - intros (y & Hin & E). apply str_eqb_eq in E. now subst.
  - intros H. exists x. split; [exact H|apply str_eqb_refl].
Qed.

Lemma first_seen_in (l : list str) (x : str) :
  In x (first_seen l) <-> In x l.
Proof.
  induction l as [|y l IH] using rev_ind; [reflexivity|].
  rewrite first_seen_snoc, in_app_iff. simpl.
  destruct (existsb _ (first_seen l)) eqn:E.
  - apply existsb_str_eqb in E. rewrite IH. intuition (subst; tauto).
  - rewrite in_app_iff, IH. simpl. tauto.
Qed.

Lemma first_seen_nodup (l : list str) : NoDup (first_seen l).
Proof.
  induction l as [|y l IH] using rev_ind; [constructor|].
  rewrite first_seen_snoc.
  destruct (existsb _ (first_seen l)) eqn:E; [exact IH|].
  apply NoDup_app; [exact IH|repeat constructor; intros []|].
  intros a Ha [<-|[]].
  apply existsb_str_eqb in Ha. congruence.
Qed.

Lemma tally_absent (d : dict Z) (c : str) :
  ~ In c (keys d) -> tally (fun k => str_eqb k c) d = 0.
Proof.
  unfold keys. induction d as [|[k v] d IH]; simpl; intros H; auto.
  destruct (str_eqb k c) eqn:E.
  - apply str_eqb_eq in E. subst. tauto.
  - apply IH. tauto.
Qed.

(** With distinct keys, the count of a label is what the counter holds
    for it. *)
Lemma tally_key (d : dict Z) (c : str) :
  NoDup (keys d) -> tally (fun k => str_eqb k c) d = count_of d c.
Proof.
  unfold keys, count_of. induction d as [|[k v] d IH]; simpl; intros H; auto.
  inversion H as [|? ? Hn Hd]; subst.
  destruct (str_eqb k c) eqn:E.
  - apply str_eqb_eq in E. subst.
    rewrite (tally_absent d c Hn). lia.
  - now apply IH.
Qed.

Lemma counter_keys_ok_with_snp (d : decoder) (s : snp) :
  counter_keys_ok d -> counter_keys_ok (with_snp d s).
Proof.
  intros (Hc & Hg & Nc & Ng). unfold counter_keys_ok, with_snp, incr.
  cbn [snps chromosome_counts genotype_counts].
  rewrite !map_app. cbn [map].
  rewrite !first_seen_snoc, !keys_set, !contains_keys.
  rewrite <- Hc, <- Hg. repeat split; auto.
  - destruct (existsb _ (keys (chromosome_counts d))) eqn:E; [exact Nc|].
    rewrite Hc in E |- *.
    pose proof (first_seen_nodup (map chromosome (snps d) ++ [chromosome s]))
      as N.
    now rewrite first_seen_snoc, E in N.
  - destruct (existsb _ (keys (genotype_counts d))) eqn:E; [exact Ng|].
    rewrite Hg in E |- *.
    pose proof (first_seen_nodup (map genotype (snps d) ++ [genotype s]))
      as N.
    now rewrite first_seen_snoc, E in N.
Qed.

Lemma counter_keys_ok_parsed (file : str) (f : list str) :
  counter_keys_ok (state_of (parse_genome_file f (init file))).
Proof.
  rewrite parse_genome_file_state.
  apply for_each_state; [|repeat split; constructor].
  intros raw d H. destruct (parse_line_cases raw d) as [E|[E|[s E]]];
    rewrite E; unfold state_of; simpl; auto using counter_keys_ok_with_snp.
Qed.

(** X3. After the parsing pass, for every label the per-chromosome
    counter holds the number of records with that chromosome, and the
    per-genotype counter the number of records with that genotype (0 for
    a label no record has); the keys of each counter are the distinct
    labels of the records, in the order in which they first occur. *)
Theorem counters_per_label (file : str) (f : list str) :
  let self := state_of (parse_genome_file f (init file)) in
  keys (chromosome_counts self) = first_seen (map chromosome (snps self))
  /\ keys (genotype_counts self) = first_seen (map genotype (snps self))
  /\ (forall c, count_of (chromosome_counts self) c
                = count_by chromosome (fun x => str_eqb x c) (snps self))
  /\ (forall g, count_of (genotype_counts self) g
                = count_by genotype (fun x => str_eqb x g) (snps self)).
Proof.
  intros self.
  destruct (counter_keys_ok_parsed file f) as (Hc & Hg & Nc & Ng).
  destruct (counters_ok_parsed file f) as (_ & Tc & Tg & _).
  fold self in Hc, Hg, Nc, Ng, Tc, Tg.
  repeat split; auto.
  - intros c. now rewrite <- Tc, tally_key.
  - intros g. now rewrite <- Tg, tally_key.
Qed.

(* ================================================================= *)
(** ** ASCII input *)

Lemma lstrip_forall (P : char -> Prop) (s : str) :
  Forall P s -> Forall P (lstrip s).
Proof.
  induction 1 as [|c s Hc Hs IH]; simpl; [constructor|].
  destruct (isspace c); auto.
Qed.

Lemma strip_forall (P : char -> Prop) (s : str) :
  Forall P s -> Forall P (strip s).
Proof.
  intros H. unfold strip, rstrip.
  apply Forall_rev, lstrip_forall, Forall_rev, lstrip_forall, H.
Qed.

Lemma split_forall (P : char -> Prop) (s f : str) :
  Forall P s -> In f (split tab s) -> Forall P f.
Proof.
  revert f. induction s as [|c s IH]; intros f H Hin; simpl in Hin.
  - destruct Hin as [<-|[]]. constructor.
  - inversion H as [|? ? Hc Hs]; subst.
    destruct (N.eqb c tab).
    + destruct Hin as [<-|Hin]; [constructor|auto].
    + destruct (split tab s) as [|g gs].
      * destruct Hin as [<-|[]]. repeat constructor. exact Hc.
      * destruct Hin as [<-|Hin].
        -- constructor; [exact Hc|]. apply IH; [exact Hs|now left].
        -- apply IH; [exact Hs|now right].
Qed.

Lemma digit_only_from_178 :
  Forall (fun r => (178 <= fst r)%N) digit_only_ranges.
Proof. unfold digit_only_ranges. repeat constructor; simpl; lia. Qed.

(** An ASCII character that passes [isdigit] is a decimal digit. *)
Lemma ascii_digit_decimal (c : char) :
  (c < 128)%N -> isdigit_char c = true -> isdecimal_char c = true.
Proof.
  intros Hc. unfold isdigit_char.
  destruct (isdecimal_char c); [reflexivity|]. cbn [orb].
  intros H. apply existsb_exists in H as (r & Hin & Hr).
  pose proof digit_only_from_178 as F. rewrite Forall_forall in F.
  apply F in Hin. apply andb_true_iff in Hr as [Hr _].
  apply N.leb_le in Hr. lia.
Qed.

Lemma ascii_isdigit_isdecimal (s : str) :
  ascii_only s -> isdigit s = true -> isdecimal s = true.
Proof.
  unfold isdigit, isdecimal. destruct s as [|c s]; [discriminate|].
  generalize (c :: s). intros l H.
  induction H as [|x l Hx Hl IH]; simpl; [reflexivity|].
  intros D. apply andb_true_iff in D as [D1 D2].
  now rewrite (ascii_digit_decimal x Hx D1), IH.
Qed.

Lemma lstrip_shorter (s : str) :
  (List.length (lstrip s) <= List.length s)%nat.
Proof.
  induction s as [|c s IH]; simpl; [lia|].
  destruct (isspace c); simpl; lia.
Qed.

Lemma strip_shorter (s : str) :
  (List.length (strip s) <= List.length s)%nat.
Proof.
  unfold strip, rstrip. rewrite length_rev.
  etransitivity; [apply lstrip_shorter|].
  rewrite length_rev. apply lstrip_shorter.
Qed.

Lemma split_field_shorter (s f : str) :
  In f (split tab s) -> (List.length f <= List.length s)%nat.
Proof.
  revert f. induction s as [|c s IH]; intros f Hin; simpl in Hin.
  - destruct Hin as [<-|[]]. simpl. lia.
  - destruct (N.eqb c tab).
    + destruct Hin as [<-|Hin]; [simpl; lia|].
      apply IH in Hin. simpl. lia.
    + destruct (split tab s) as [|g gs].
      * destruct Hin as [<-|[]]. simpl. lia.
      * destruct Hin as [<-|Hin].
        -- specialize (IH g (or_introl eq_refl)). simpl. lia.
        -- specialize (IH f (or_intror Hin)). simpl. lia.
Qed.

(** The fields of a plain line, stripped, are plain. *)
Lemma plain_field (raw f : str) :
  plain raw -> In f (split tab (strip raw)) -> plain f.
Proof.
  intros [A L] Hin. split.
  - apply (split_forall _ (strip raw)); [now apply strip_forall|exact Hin].
  - pose proof (split_field_shorter _ _ Hin).
    pose proof (strip_shorter raw). lia.
Qed.

(** Line 36 raises on no plain field. *)
Lemma position_of_plain (p : str) :
  plain p -> exists pos, position_of p = inr pos.
Proof.
  intros [H L]. destruct (position_of_cases p) as (A & B & _).
  destruct (isdigit p) eqn:D.
  - destruct (B (ascii_isdigit_isdecimal p H D) L) as (n & _ & E).
    now exists (PosInt n).
  - exists (PosStr p). now apply A.
Qed.

Lemma parse_line_plain (raw : str) (d : decoder) :
  plain raw ->
  parse_line raw d = (d, [], inr tt)
  \/ exists r c p g pos,
       plain r /\ plain c /\ plain p /\ plain g
       /\ parse_line raw d = (with_snp d (mkSnp r c pos g), [], inr tt).
Proof.
  intros H.
  destruct (parse_line_outcome raw d)
    as [E|[E|(r & c & p & g & pos & _ & S & P & E)]]; [now left| |].
  - exfalso. revert E. unfold parse_line.
    destruct (startswith _ _ || str_eqb _ _); [discriminate|].
    destruct (startswith _ _); [discriminate|].
    destruct (split tab (strip raw)) as [|r [|c [|p [|g [|x fs]]]]] eqn:S;
      try discriminate.
    assert (A : plain p).
    { apply (plain_field raw); [exact H|]. rewrite S. simpl. tauto. }
    destruct (position_of_plain p A) as [pos E]. unfold bind, lift.
    rewrite E. unfold ret. rewrite record_snp_run. discriminate.
  - right. exists r, c, p, g, pos.
    assert (A : forall x, In x [r; c; p; g] -> plain x).
    { intros x Hin. apply (plain_field raw); [exact H|now rewrite S]. }
    refine (conj (A r _) (conj (A c _) (conj (A p _) (conj (A g _) E))));
      simpl; tauto.
Qed.

(** A loop whose iterations print nothing and raise nothing. *)
Lemma for_each_quiet {A} (body : A -> M unit) (xs : list A) :
  (forall x d, In x xs ->
               printed (body x d) = [] /\ raised (body x d) = None) ->
  forall d, printed (for_each xs body d) = []
            /\ raised (for_each xs body d) = None.
Proof.
  induction xs as [|x xs IH]; intros H d; [now split|].
  cbn [for_each]. unfold bind.
  destruct (H x d (or_introl eq_refl)) as [P R].
  destruct (body x d) as [[d1 o1] [e|u]]; [discriminate|].
  unfold printed, raised in P, IH |- *. simpl in P. subst o1.
  destruct (IH (fun y d' Hy => H y d' (or_intror Hy)) d1) as [P1 R1].
  destruct (for_each xs body d1) as [[d2 o2] r2]. simpl in *. now subst.
Qed.

Lemma parse_plain_quiet (f : list str) (d : decoder) :
  (forall raw, In raw f -> plain raw) ->
  printed (for_each f parse_line d) = []
  /\ raised (for_each f parse_line d) = None.
Proof.
  intros H. apply for_each_quiet. intros raw d' Hin.
  destruct (parse_line_plain raw d' (H raw Hin))
    as [E|(r & c & p & g & pos & _ & _ & _ & _ & E)];
    rewrite E; now split.
Qed.

(** X4. On input whose lines hold ASCII characters only and are each at
    most 4300 characters long (the number of digits [int] accepts), the
    parsing pass raises nothing: it reads every line and prints its two
    lines, the second with the number of records kept. *)
Theorem ascii_input_parses (file : str) (f : list str) :
  (forall raw, In raw f -> plain raw) ->
  let r := parse_genome_file f (init file) in
  raised r = None
  /\ printed r = [Parsing file; Parsed (total_snps (state_of r))]
  /\ total_snps (state_of r) = Z.of_nat (List.length (snps (state_of r))).
Proof.
  intros H r.
  destruct (counters_ok_parsed file f) as (Ht & _). fold r in Ht.
  split; [|split; [|exact Ht]]; subst r;
    unfold parse_genome_file, bind, get_self, print;
    destruct (parse_plain_quiet f (init file) H) as [P R];
    destruct (for_each f parse_line (init file)) as [[d o] [e|u]];
    try discriminate; unfold printed, raised, state_of in *; simpl in *;
    now subst.
Qed.

Lemma ascii_input_parses_witness :
  raised (parse_genome_file
            [ header_line;
              data_line (lit "rs4680") (lit "22") (lit "19951271") (lit "AG") ]
            (init (lit "genome.txt")))
  = None.
Proof.
  apply (ascii_input_parses (lit "genome.txt")).
  intros raw [<-|[<-|[]]];
    (split; [unfold ascii_only; repeat constructor
            |vm_compute; discriminate]).
Defined.

(* ================================================================= *)
(** ** The outcomes of [generate_summary] *)

Lemma chromosome_key_error (c : str) (e : exn) :
  chromosome_key c = inl e -> e = ValueError.
Proof.
  unfold chromosome_key, int. destruct (isdigit c); [|discriminate].
  destruct (digits_value 0 c);
    [destruct (int_max_str_digits <? _)|]; try discriminate; congruence.
Qed.

Lemma all_keys_error (l : list str) (e : exn) :
  all_keys l = inl e -> e = ValueError.
Proof.
  induction l as [|c l IH]; simpl; [discriminate|].
  destruct (chromosome_key c) as [e'|k] eqn:K.
  - intros E. injection E as <-. now apply chromosome_key_error in K.
  - destruct (all_keys l); [|discriminate].
    intros E. injection E as <-. now apply IH.
Qed.

Lemma all_keys_labels (l : list str) (ks : list (Z * str)) :
  all_keys l = inr ks -> map snd ks = l.
Proof.
  revert ks. induction l as [|c l IH]; simpl; intros ks E.
  - now injection E as <-.
  - destruct (chromosome_key c) as [e|k] eqn:K; [discriminate|].
    destruct (all_keys l) as [e|ks']; [discriminate|].
    injection E as <-. simpl. rewrite (IH ks' eq_refl). f_equal.
    unfold chromosome_key in K. destruct (isdigit c).
    + destruct (int c); [discriminate|]. now injection K as <-.
    + now injection K as <-.
Qed.

(** The conversion of a label raises at line 65. *)
Lemma generate_summary_raises_at_keys (self : decoder) (e : exn) :
  total_snps self <> 0 ->
  all_keys (keys (chromosome_counts self)) = inl e ->
  generate_summary self
  = (self,
     [ Heading "GENOME SUMMARY STATISTICS";
       TotalSnps (total_snps self);
       Genotyped (total_snps self - no_calls self)
         (inject_Z (100 * (total_snps self - no_calls self))
          / inject_Z (total_snps self))%Q;
       NoCalls (no_calls self)
         (inject_Z (100 * no_calls self) / inject_Z (total_snps self))%Q;
       Heading "CHROMOSOME DISTRIBUTION" ],
     inl e).
Proof.
  intros Ht Hk. apply Z.eqb_neq in Ht.
  unfold generate_summary.
  cbv beta delta [bind get_self print] iota.
  unfold truediv at 1 2. rewrite Ht. cbv beta delta [ret] iota.
  now rewrite collect_keys, Hk.
Qed.

Lemma generate_summary_returns (self : decoder) (ks : list (Z * str)) :
  total_snps self <> 0 ->
  all_keys (keys (chromosome_counts self)) = inr ks ->
  fst (classify (genotype_counts self))
  + snd (classify (genotype_counts self)) <> 0 ->
  generate_summary self = (self, summary_lines self ks, inr tt).
Proof.
  intros Ht Hk Hc. apply Z.eqb_neq in Ht. apply Z.eqb_neq in Hc.
  unfold generate_summary, summary_lines.
  cbv beta delta [bind get_self print] iota.
  unfold truediv at 1 2. rewrite Ht. cbv beta delta [ret] iota.
  rewrite collect_keys, Hk.
  rewrite (for_each_prints _
             (fun kc =>
                ChrRow (snd kc) (count_of (chromosome_counts self) (snd kc))
                  (inject_Z (count_of (chromosome_counts self) (snd kc))
                   / inject_Z (total_snps self) * inject_Z 100)%Q)).
  2: { intros x d. unfold truediv. rewrite Ht. reflexivity. }
  destruct (classify (genotype_counts self)) as [h t].
  cbn [fst snd] in Hc |- *.
  unfold truediv at 1 2. rewrite Hc. cbv beta delta [ret] iota.
  rewrite (for_each_prints _
             (fun gc =>
                TopGenotype (fst gc) (snd gc)
                  (inject_Z (snd gc) / inject_Z (total_snps self)
                   * inject_Z 100)%Q)).
  2: { intros x d. unfold truediv. rewrite Ht. reflexivity. }
  unfold summary_until_genotypes.
  cbn [app]. repeat (rewrite <- app_assoc; cbn [app]). reflexivity.
Qed.

(** X5. [generate_summary] never changes the object, and its outcome is
    decided by three tests in turn: it raises [ZeroDivisionError] when the
    total is zero; otherwise [ValueError] when the conversion of a
    chromosome label raises; otherwise [ZeroDivisionError] when the
    homozygous and heterozygous totals are both zero; otherwise it
    returns, having printed all its lines.  It raises nothing else. *)
Theorem generate_summary_outcome (self : decoder) :
  let r := generate_summary self in
  let labels := all_keys (keys (chromosome_counts self)) in
  let classified :=
    fst (classify (genotype_counts self))
    + snd (classify (genotype_counts self)) in
  state_of r = self
  /\ (raised r = None
      <-> total_snps self <> 0 /\ (exists ks, labels = inr ks)
          /\ classified <> 0)
  /\ (raised r = Some ValueError
      <-> total_snps self <> 0 /\ labels = inl ValueError)
  /\ (raised r = Some ZeroDivisionError
      <-> total_snps self = 0
          \/ ((exists ks, labels = inr ks) /\ classified = 0))
  /\ raised r <> Some KeyError
  /\ (forall ks, labels = inr ks -> raised r = None ->
                 printed r = summary_lines self ks).
Proof.
  intros r labels classified.
  assert (Fin : forall o res,
             generate_summary self = (self, o, res) ->
             (res = inl ZeroDivisionError
              <-> total_snps self = 0
                  \/ ((exists ks, labels = inr ks) /\ classified = 0)) ->
             (res = inl ValueError
              <-> total_snps self <> 0 /\ labels = inl ValueError) ->
             (res = inr tt
              <-> total_snps self <> 0 /\ (exists ks, labels = inr ks)
                  /\ classified <> 0) ->
             (res = inr tt -> forall ks, labels = inr ks ->
                              o = summary_lines self ks) ->
             res <> inl KeyError ->
             state_of r = self
             /\ (raised r = None
                 <-> total_snps self <> 0 /\ (exists ks, labels = inr ks)
                     /\ classified <> 0)
             /\ (raised r = Some ValueError
                 <-> total_snps self <> 0 /\ labels = inl ValueError)
             /\ (raised r = Some ZeroDivisionError
                 <-> total_snps self = 0
                     \/ ((exists ks, labels = inr ks) /\ classified = 0))
             /\ raised r <> Some KeyError
             /\ (forall ks, labels = inr ks -> raised r = None ->
                            printed r = summary_lines self ks)).
  { intros o res E Hz Hv Hr Ho Hk. unfold r. rewrite E.
    unfold state_of, raised, printed. cbn [fst snd].
    split; [reflexivity|].
    destruct res as [[| |]|[]]; cbn iota;
      refine (conj _ (conj _ (conj _ (conj _ _)))).
    - split; [discriminate|]. intros H. apply Hr in H. discriminate.
    - split; [discriminate|]. intros H. apply Hv in H. discriminate.
    - split; [intros _; now apply Hz|reflexivity].
    - discriminate.
    - discriminate.
    - split; [discriminate|]. intros H. apply Hr in H. discriminate.
    - split; [intros _; now apply Hv|reflexivity].
    - split; [discriminate|]. intros H. apply Hz in H. discriminate.
    - discriminate.
    - discriminate.
    - now contradiction Hk.
    - now contradiction Hk.
    - now contradiction Hk.
    - now contradiction Hk.
    - now contradiction Hk.
    - split; [intros _; now apply Hr|reflexivity].
    - split; [discriminate|]. intros H. apply Hv in H. discriminate.
    - split; [discriminate|]. intros H. apply Hz in H. discriminate.
    - discriminate.
    - intros ks L _. now apply Ho. }
  destruct (Z.eq_dec (total_snps self) 0) as [T|T].
  { apply (Fin _ _ (generate_summary_zero_total self T));
      try discriminate;
      try (split; [intros ?; discriminate|intros (? & _); contradiction]).
    split; auto. }
  destruct labels as [e|ks] eqn:L; unfold labels in L.
  { pose proof (all_keys_error _ _ L). subst e.
    apply (Fin _ _ (generate_summary_raises_at_keys self _ T L));
      try discriminate.
    - split; [discriminate|].
      intros [?|((ks & E) & _)]; [contradiction|discriminate].
    - split; auto.
    - split; [discriminate|]. intros (_ & (ks & E) & _). discriminate. }
  destruct (Z.eq_dec classified 0) as [C|C]; unfold classified in C.
  { apply (Fin _ _ (generate_summary_raises_at_genotypes self ks T L C));
      try discriminate.
    - split; auto. intros _. right. split; [now exists ks|exact C].
    - split; [discriminate|]. intros (_ & E). discriminate.
    - split; [discriminate|]. intros (_ & _ & ?). contradiction. }
  apply (Fin _ _ (generate_summary_returns self ks T L C));
    try discriminate.
  - split; [discriminate|]. intros [?|(_ & ?)]; contradiction.
  - split; [discriminate|]. intros (_ & E). discriminate.
  - split; auto. intros _. repeat split; auto. now exists ks.
  - intros _ ks' E. now injection E as <-.
Qed.

(* ================================================================= *)
(** ** The summary of ASCII input *)

Lemma for_each_state_in {A} (I : decoder -> Prop) (body : A -> M unit)
      (xs : list A) :
  (forall x d, In x xs -> I d -> I (state_of (body x d))) ->
  forall d, I d -> I (state_of (for_each xs body d)).
Proof.
  induction xs as [|x xs IH]; intros Hb d Hd; simpl; [exact Hd|].
  unfold bind. pose proof (Hb x d (or_introl eq_refl) Hd) as H1.
  destruct (body x d) as [[d1 o1] [e|u]]; simpl in *; [exact H1|].
  specialize (IH (fun y d' Hy => Hb y d' (or_intror Hy)) d1 H1).
  now destruct (for_each xs body d1) as [[? ?] ?].
Qed.

Lemma plain_chromosomes (file : str) (f : list str) :
  (forall raw, In raw f -> plain raw) ->
  Forall (fun s => plain (chromosome s))
         (snps (state_of (parse_genome_file f (init file)))).
Proof.
  intros H. rewrite parse_genome_file_state.
  apply (for_each_state_in
           (fun d => Forall (fun s => plain (chromosome s)) (snps d)));
    [|constructor].
  intros raw d Hin Hd.
  destruct (parse_line_plain raw d (H raw Hin))
    as [E|(r & c & p & g & pos & _ & Ac & _ & _ & E)];
    rewrite E; unfold state_of; simpl; auto.
  apply Forall_app. split; [exact Hd|].
  constructor; [exact Ac|constructor].
Qed.

Lemma chromosome_key_plain (c : str) :
  plain c -> exists k, chromosome_key c = inr k.
Proof.
  intros [H L]. unfold chromosome_key, int. destruct (isdigit c) eqn:D.
  - pose proof (ascii_isdigit_isdecimal c H D) as Dec.
    unfold isdecimal in Dec. destruct c as [|x c]; [discriminate|].
    destruct (isdecimal_digits_value (x :: c) 0 Dec) as [n ->].
    apply Z.ltb_ge in L. rewrite L. now eexists.
  - now eexists.
Qed.

Lemma all_keys_returns (l : list str) :
  (forall c, In c l -> exists k, chromosome_key c = inr k) ->
  exists ks, all_keys l = inr ks.
Proof.
  induction l as [|c l IH]; intros H; simpl; [now eexists|].
  destruct (H c (or_introl eq_refl)) as [k ->].
  destruct IH as [ks ->]; [intros; apply H; now right|]. now eexists.
Qed.

Lemma plain_labels_convert (file : str) (f : list str) :
  (forall raw, In raw f -> plain raw) ->
  exists ks,
    all_keys (keys (chromosome_counts
                      (state_of (parse_genome_file f (init file)))))
    = inr ks.
Proof.
  intros H. apply all_keys_returns. intros c Hin.
  apply chromosome_key_plain.
  destruct (counter_keys_ok_parsed file f) as (Hc & _).
  rewrite Hc in Hin. apply (proj1 (first_seen_in _ _)) in Hin.
  apply in_map_iff in Hin as (s & <- & Hs).
  pose proof (plain_chromosomes file f H) as A.
  rewrite Forall_forall in A. now apply A.
Qed.

Lemma ascii_summary_cases (file : str) (f : list str) :
  (forall raw, In raw f -> plain raw) ->
  let self := state_of (parse_genome_file f (init file)) in
  let classified :=
    count_by genotype is_homozygous (snps self)
    + count_by genotype is_heterozygous (snps self) in
  (0 < classified -> raised (generate_summary self) = None)
  /\ (classified = 0 ->
      raised (generate_summary self) = Some ZeroDivisionError)
  /\ 0 <= classified.
Proof.
  intros H self classified.
  destruct (plain_labels_convert file f H) as [ks K]. fold self in K.
  destruct (counters_ok_parsed file f) as (Ht & _ & Hg & Hn).
  fold self in Ht, Hg, Hn.
  assert (C : fst (classify (genotype_counts self))
              + snd (classify (genotype_counts self)) = classified).
  { rewrite classify_tally. cbn [fst snd]. now rewrite !Hg. }
  pose proof (count_by_classes (snps self)) as B.
  pose proof (count_by_bounds genotype is_homozygous (snps self)).
  pose proof (count_by_bounds genotype is_heterozygous (snps self)).
  pose proof (count_by_bounds genotype is_no_call (snps self)).
  repeat split.
  - intros P.
    rewrite (generate_summary_returns self ks); [reflexivity| |exact K|];
      fold classified in B; lia.
  - intros Z. destruct (Z.eq_dec (total_snps self) 0) as [T|T].
    + now rewrite (generate_summary_zero_total self T).
    + rewrite (generate_summary_raises_at_genotypes self ks T K);
        [reflexivity|lia].
  - unfold classified. lia.
Qed.

(** X6. On ASCII input whose lines are each at most 4300 characters long
    (the number of digits [int] accepts), [generate_summary] after the
    parsing pass returns when at least one record has a two-character
    genotype other than the sentinel, and raises [ZeroDivisionError] when
    there is none: no empty input, and no input of no-calls only, gets a
    summary. *)
Theorem ascii_summary_outcome (file : str) (f : list str) :
  (forall raw, In raw f -> plain raw) ->
  let self := state_of (parse_genome_file f (init file)) in
  let classified :=
    count_by genotype is_homozygous (snps self)
    + count_by genotype is_heterozygous (snps self) in
  (0 < classified -> raised (generate_summary self) = None)
  /\ (classified = 0 ->
      raised (generate_summary self) = Some ZeroDivisionError)
  /\ 0 <= classified.
Proof. exact (ascii_summary_cases file f). Qed.

Lemma ascii_summary_outcome_witness :
  raised (generate_summary
            (state_of (parse_genome_file
                         [ data_line (lit "rs4680") (lit "22")
                             (lit "19951271") (lit "AG") ]
                         (init (lit "genome.txt")))))
  = None.
Proof.
  apply (ascii_summary_outcome (lit "genome.txt")
           [ data_line (lit "rs4680") (lit "22") (lit "19951271")
               (lit "AG") ]).
  - intros raw [<-|[]].
    split; [unfold ascii_only; repeat constructor|vm_compute; discriminate].
  - vm_compute. reflexivity.
Defined.

(* ================================================================= *)
(** ** [Counter.most_common] *)

Lemma insert_count_perm (x : str * Z) (l : list (str * Z)) :
  Permutation (insert_count x l) (x :: l).
Proof.
  induction l as [|y l IH]; simpl; [reflexivity|].
  destruct (snd x <? snd y); [|reflexivity].
  rewrite IH. apply perm_swap.
Qed.

Lemma insert_count_sorted (x : str * Z) (l : list (str * Z)) :
  StronglySorted count_ge l -> StronglySorted count_ge (insert_count x l).
Proof.
  unfold count_ge. induction l as [|y l IH]; simpl; intros H.
  - repeat constructor.
  - inversion H as [|? ? Hs Hf]; subst.
    destruct (snd x <? snd y) eqn:E.
    + apply Z.ltb_lt in E. constructor; [auto|].
      apply (Permutation_Forall (Permutation_sym (insert_count_perm x l))).
      constructor; [lia|exact Hf].
    + apply Z.ltb_ge in E. constructor; [exact H|].
      constructor; [exact E|].
      eapply Forall_impl; [|exact Hf]. simpl. intros z Hz. lia.
Qed.

(** Inserting keeps entries of equal count in their order. *)
Lemma insert_count_stable (v : Z) (x : str * Z) (l : list (str * Z)) :
  with_count v (insert_count x l) = with_count v (x :: l).
Proof.
  unfold with_count. induction l as [|y l IH]; [reflexivity|].
  cbn [insert_count]. destruct (snd x <? snd y) eqn:E; [|reflexivity].
  apply Z.ltb_lt in E. cbn [filter] in IH |- *. rewrite IH.
  destruct (snd x =? v) eqn:Ex, (snd y =? v) eqn:Ey; try reflexivity.
  apply Z.eqb_eq in Ex, Ey. lia.
Qed.

Lemma sorted_counts (c : dict Z) :
  Permutation (fold_right insert_count [] c) c
  /\ StronglySorted count_ge (fold_right insert_count [] c)
  /\ forall v, with_count v (fold_right insert_count [] c) = with_count v c.
Proof.
  induction c as [|x c (P & S & F)]; simpl.
  - repeat split; constructor.
  - repeat split.
    + now rewrite insert_count_perm, P.
    + now apply insert_count_sorted.
    + intros v. rewrite insert_count_stable. unfold with_count in *.
      cbn [filter]. now rewrite F.
Qed.

(** X7. [most_common n] returns the first [n] entries, or all of them
    when there are fewer, of an arrangement of the counter in which the
    counts never increase and entries of equal count keep their insertion
    order: nothing it leaves out has a larger count than an entry it
    returns. *)
Theorem most_common_spec (n : nat) (c : dict Z) :
  exists rest,
    Permutation (most_common n c ++ rest) (items c)
    /\ StronglySorted count_ge (most_common n c ++ rest)
    /\ List.length (most_common n c) = Nat.min n (List.length (items c))
    /\ forall v, with_count v (most_common n c ++ rest)
                 = with_count v (items c).
Proof.
  destruct (sorted_counts c) as (P & S & F).
  exists (skipn n (fold_right insert_count [] (items c))).
  unfold most_common. rewrite firstn_skipn. unfold items.
  repeat split; auto.
  rewrite length_firstn. now rewrite (Permutation_length P).
Qed.

(* ================================================================= *)
(** ** The chromosome rows *)

(** When [generate_summary] returns it has printed all its lines. *)
Lemma generate_summary_returned (self : decoder) :
  raised (generate_summary self) = None ->
  exists ks,
    all_keys (keys (chromosome_counts self)) = inr ks
    /\ generate_summary self = (self, summary_lines self ks, inr tt).
Proof.
  intros R.
  destruct (Z.eq_dec (total_snps self) 0) as [T|T].
  { rewrite (generate_summary_zero_total self T) in R. discriminate. }
  destruct (all_keys (keys (chromosome_counts self))) as [e|ks] eqn:L.
  { rewrite (generate_summary_raises_at_keys self e T L) in R.
    discriminate. }
  destruct (Z.eq_dec (fst (classify (genotype_counts self))
                      + snd (classify (genotype_counts self))) 0) as [C|C].
  { rewrite (generate_summary_raises_at_genotypes self ks T L C) in R.
    discriminate. }
  exists ks. split; [reflexivity|].
  now apply generate_summary_returns.
Qed.

Lemma chr_rows_app (a b : list out) :
  chr_rows (a ++ b) = chr_rows a ++ chr_rows b.
Proof.
  induction a as [|x a IH]; [reflexivity|].
  destruct x; simpl; rewrite ?IH; reflexivity.
Qed.

Lemma chr_rows_rows {A} (l : list A) (label : A -> str) (count : A -> Z)
      (percent : A -> Q) :
  chr_rows (map (fun x => ChrRow (label x) (count x) (percent x)) l)
  = map (fun x => (label x, count x)) l.
Proof. induction l as [|x l IH]; simpl; rewrite ?IH; reflexivity. Qed.

Lemma chr_rows_top {A} (l : list A) (gt : A -> str) (count : A -> Z)
      (percent : A -> Q) :
  chr_rows (map (fun x => TopGenotype (gt x) (count x) (percent x)) l) = [].
Proof. induction l as [|x l IH]; simpl; rewrite ?IH; reflexivity. Qed.

Lemma chr_rows_summary (self : decoder) (ks : list (Z * str)) :
  chr_rows (summary_lines self ks)
  = map (fun kc => (snd kc, count_of (chromosome_counts self) (snd kc)))
        (sort_keys ks).
Proof.
  unfold summary_lines, summary_until_genotypes.
  rewrite !chr_rows_app, chr_rows_rows, chr_rows_top. simpl.
  now rewrite !app_nil_r.
Qed.

Lemma all_keys_each (l : list str) (ks : list (Z * str)) :
  all_keys l = inr ks -> Forall (fun k => chromosome_key (snd k) = inr k) ks.
Proof.
  revert ks. induction l as [|c l IH]; simpl; intros ks E.
  - injection E as <-. constructor.
  - destruct (chromosome_key c) as [e|k] eqn:K; [discriminate|].
    destruct (all_keys l) as [e|ks'] eqn:L; [discriminate|].
    injection E as <-. constructor; [|now apply IH].
    assert (S : snd k = c).
    { pose proof (all_keys_labels [c] [k]) as H. simpl in H.
      rewrite K in H. specialize (H eq_refl). now injection H. }
    now rewrite S.
Qed.

Lemma all_keys_of (ks : list (Z * str)) :
  Forall (fun k => chromosome_key (snd k) = inr k) ks ->
  all_keys (map snd ks) = inr ks.
Proof.
  induction 1 as [|k ks Hk Hf IH]; simpl; [reflexivity|].
  now rewrite Hk, IH.
Qed.

(** X8. When [generate_summary] returns on the state the parsing pass
    leaves, it prints one chromosome row for each distinct chromosome
    label of the records, holding the number of records with that label,
    and the rows stand in ascending order of their tuples. *)
Theorem chromosome_rows (file : str) (f : list str) :
  let self := state_of (parse_genome_file f (init file)) in
  let rows := chr_rows (printed (generate_summary self)) in
  raised (generate_summary self) = None ->
  Permutation (map fst rows) (first_seen (map chromosome (snps self)))
  /\ (forall c n, In (c, n) rows ->
                  n = count_by chromosome (fun x => str_eqb x c) (snps self))
  /\ exists ks, all_keys (map fst rows) = inr ks
                /\ StronglySorted key_le ks.
Proof.
  intros self rows R.
  destruct (generate_summary_returned self R) as (ks & K & E).
  destruct (counter_keys_ok_parsed file f) as (Hc & _ & Nc & _).
  destruct (counters_ok_parsed file f) as (_ & Tc & _).
  fold self in Hc, Nc, Tc.
  assert (Rows : rows = map (fun kc => (snd kc,
                                        count_of (chromosome_counts self)
                                          (snd kc)))
                            (sort_keys ks)).
  { unfold rows. rewrite E. unfold printed. cbn [fst snd].
    apply chr_rows_summary. }
  assert (Labels : map fst rows = map snd (sort_keys ks)).
  { rewrite Rows, map_map. reflexivity. }
  repeat split.
  - rewrite Labels, <- Hc, <- (all_keys_labels _ _ K).
    apply Permutation_map, sort_keys_perm.
  - intros c n Hin. rewrite Rows in Hin.
    apply in_map_iff in Hin as (kc & Ekc & _). injection Ekc as <- <-.
    now rewrite <- Tc, tally_key.
  - exists (sort_keys ks). split; [|apply sort_keys_sorted].
    rewrite Labels. apply all_keys_of.
    apply (Permutation_Forall (Permutation_sym (sort_keys_perm ks))).
    now apply (all_keys_each _ _ K).
Qed.

Lemma chromosome_rows_witness :
  let self :=
    state_of (parse_genome_file
                [ data_line (lit "rs1") (lit "X") (lit "100") (lit "AG");
                  data_line (lit "rs2") (lit "2") (lit "200") (lit "AA");
                  data_line (lit "rs3") (lit "X") (lit "300") (lit "CC") ]
                (init (lit "genome.txt"))) in
  Permutation (map fst (chr_rows (printed (generate_summary self))))
              (first_seen (map chromosome (snps self))).
Proof.
  intros self.
  apply (chromosome_rows (lit "genome.txt")
           [ data_line (lit "rs1") (lit "X") (lit "100") (lit "AG");
             data_line (lit "rs2") (lit "2") (lit "200") (lit "AA");
             data_line (lit "rs3") (lit "X") (lit "300") (lit "CC") ]).
  vm_compute. reflexivity.
Defined.

(* ================================================================= *)
(** ** The report of the notable markers *)

(** The keys of [found_snps] stand in the order in which the notable
    identifiers first occur. *)
Lemma found_keys (l : list snp) : keys (fst (find_snps l)) = notable_ids l.
Proof.
  unfold notable_ids. induction l as [|s l IH] using rev_ind; [reflexivity|].
  rewrite find_snps_snoc, map_app, filter_app. cbn [map filter].
  destruct (find_snps l) as [found apoe]. cbn [fst] in IH.
  unfold find_step.
  destruct (contains interesting_snps (rsid s)).
  - rewrite first_seen_snoc, <- IH, <- contains_keys.
    destruct (is_apoe (rsid s)); cbn [fst]; apply keys_set.
  - now rewrite app_nil_r.
Qed.

Lemma marker_ids_app (a b : list out) :
  marker_ids (a ++ b) = marker_ids a ++ marker_ids b.
Proof.
  induction a as [|x a IH]; [reflexivity|].
  destruct x; simpl; rewrite ?IH; reflexivity.
Qed.

(** Lines 167 to 173 on one entry of [found_snps], with what is
    printed. *)
Lemma report_marker_lines (id : str) (s : snp) (d : decoder) :
  contains interesting_snps id = true ->
  exists o,
    report_marker (id, s) d
    = (d, o, if marker_raises (id, s) then inl ValueError else inr tt)
    /\ forallb is_marker_out o = true
    /\ (marker_raises (id, s) = false ->
        marker_ids o = if is_apoe id then [] else [id]).
Proof.
  intros H. unfold report_marker, marker_raises, subscript, contains in *.
  cbn [fst snd].
  destruct (is_apoe id); cbn [negb andb]; [now exists []|].
  destruct (get interesting_snps id) as [label|]; [|discriminate].
  unfold bind, print, ret, format_comma.
  destruct (position s) as [n|raw].
  - destruct (get genotype_interpretations id) as [table|];
      [destruct (get table (genotype s))|];
      eexists; (split; [reflexivity|split; [reflexivity|]]);
      intros _; reflexivity.
  - eexists. split; [reflexivity|]. split; [reflexivity|discriminate].
Qed.

Lemma report_markers_lines (found : list (str * snp)) (d : decoder) :
  (forall id s, In (id, s) found -> contains interesting_snps id = true) ->
  exists o,
    for_each found report_marker d
    = (d, o, if existsb marker_raises found then inl ValueError else inr tt)
    /\ forallb is_marker_out o = true
    /\ (existsb marker_raises found = false ->
        marker_ids o
        = filter (fun id => negb (is_apoe id)) (map fst found)).
Proof.
  induction found as [|[id s] found IH]; intros H; [now exists []|].
  destruct (report_marker_lines id s d) as (o1 & E1 & F1 & I1);
    [apply (H id s); now left|].
  destruct IH as (o2 & E2 & F2 & I2); [intros; eapply H; right; eauto|].
  cbn [for_each existsb]. unfold bind. rewrite E1.
  destruct (marker_raises (id, s)); cbn [orb].
  { exists o1. split; [reflexivity|]. split; [exact F1|discriminate]. }
  rewrite E2. exists (o1 ++ o2). split; [reflexivity|]. split.
  - rewrite forallb_app. now rewrite F1, F2.
  - intros N. rewrite marker_ids_app, (I1 eq_refl), (I2 N).
    cbn [map filter fst]. now destruct (is_apoe id).
Qed.

Lemma apoe_block_no_marker (l : list snp) :
  marker_ids (apoe_block l) = []
  /\ forallb is_apoe_out (apoe_block l) = true.
Proof.
  unfold apoe_block.
  destruct (last_with rs429358 l), (last_with rs7412 l); cbn;
    try (now split).
  unfold apoe_line. now destruct (apoe_lookup _ _).
Qed.

(** The lines of the whole method. *)
Lemma analyze_lines (self : decoder) :
  let found := fst (find_snps (snps self)) in
  (found = []
   /\ analyze_specific_snps self
      = (self,
         [ Heading "GENETIC VARIANT ANALYSIS WITH INTERPRETATIONS";
           Searching; NoneFound ], inr tt))
  \/ (found <> []
      /\ exists o tail,
           analyze_specific_snps self
           = (self,
              Heading "GENETIC VARIANT ANALYSIS WITH INTERPRETATIONS"
              :: Searching :: o ++ tail,
              if existsb marker_raises found then inl ValueError
              else inr tt)
           /\ forallb is_marker_out o = true
           /\ forallb is_apoe_out tail = true
           /\ marker_ids tail = []
           /\ (existsb marker_raises found = false ->
               marker_ids o
               = filter (fun id => negb (is_apoe id)) (keys found))).
Proof.
  intros found. subst found.
  unfold analyze_specific_snps, bind, get_self, print.
  pose proof (apoe_block_run (snps self) self) as B.
  pose proof (fun id s => found_in (snps self) id s) as I.
  destruct (find_snps (snps self)) as [found apoe]. cbn [fst snd] in *.
  destruct found as [|item found]; [left; now split|].
  right. split; [discriminate|].
  destruct (report_markers_lines (item :: found) self) as (o & E & F & Ids).
  { intros id s Hin. now apply I in Hin. }
  unfold items in *. rewrite E.
  destruct (apoe_block_no_marker (snps self)) as [Am Aa].
  destruct (existsb marker_raises (item :: found)).
  - exists o, []. rewrite app_nil_r. repeat split; auto; discriminate.
  - rewrite B. exists o, (apoe_block (snps self)). repeat split; auto.
Qed.

(** X9. When [analyze_specific_snps] returns, its marker lines are one
    for each notable identifier of the records other than the two APOE
    identifiers, in the order in which these identifiers first occur in
    the input. *)
Theorem report_order (self : decoder) :
  raised (analyze_specific_snps self) = None ->
  marker_ids (printed (analyze_specific_snps self))
  = filter (fun id => negb (is_apoe id)) (notable_ids (snps self)).
Proof.
  intros R. rewrite <- found_keys.
  destruct (analyze_lines self)
    as [[E A]|(_ & o & tail & A & _ & _ & T & Ids)].
  - rewrite A, E. reflexivity.
  - rewrite A in R |- *. unfold raised, printed in *. cbn [fst snd] in *.
    destruct (existsb marker_raises _); [discriminate|].
    cbn [marker_ids]. now rewrite marker_ids_app, T, app_nil_r, Ids.
Qed.

Lemma report_order_witness :
  let self :=
    state_of (parse_genome_file
                [ data_line (lit "rs7412") (lit "19") (lit "45412079")
                    (lit "CC");
                  data_line (lit "rs9939609") (lit "16") (lit "53820527")
                    (lit "AT");
                  data_line (lit "rs4680") (lit "22") (lit "19951271")
                    (lit "AG");
                  data_line (lit "rs9939609") (lit "16") (lit "53820527")
                    (lit "TT") ]
                (init (lit "genome.txt"))) in
  marker_ids (printed (analyze_specific_snps self))
  = [lit "rs9939609"; lit "rs4680"].
Proof.
  intros self. rewrite (report_order self); vm_compute; reflexivity.
Defined.

(** X10. [analyze_specific_snps] prints that none of the notable markers
    was found exactly when no record carries an identifier of the table;
    it then prints only its heading, the search line and that line, and
    returns. *)
Theorem none_found_iff (self : decoder) :
  (In NoneFound (printed (analyze_specific_snps self))
   <-> forall s, In s (snps self) ->
                 contains interesting_snps (rsid s) = false)
  /\ (In NoneFound (printed (analyze_specific_snps self)) ->
      analyze_specific_snps self
      = (self,
         [ Heading "GENETIC VARIANT ANALYSIS WITH INTERPRETATIONS";
           Searching; NoneFound ], inr tt)).
Proof.
  pose proof (found_keys (snps self)) as K.
  assert (Nil : fst (find_snps (snps self)) = []
                <-> forall s, In s (snps self) ->
                              contains interesting_snps (rsid s) = false).
  { split.
    - intros E s Hin.
      destruct (contains interesting_snps (rsid s)) eqn:C; [|reflexivity].
      assert (Hn : In (rsid s) (notable_ids (snps self))).
      { apply first_seen_in, filter_In. split; [|exact C].
        now apply in_map. }
      rewrite <- K, E in Hn. destruct Hn.
    - intros H. destruct (fst (find_snps (snps self))) as [|[id s] d] eqn:E;
        [reflexivity|].
      assert (Hn : In id (notable_ids (snps self)))
        by (rewrite <- K; now left).
      apply first_seen_in, filter_In in Hn as [Hin C].
      apply in_map_iff in Hin as (s' & <- & Hs').
      rewrite (H s' Hs') in C. discriminate. }
  destruct (analyze_lines self)
    as [[E A]|(N & o & tail & A & Fo & Ft & _ & _)].
  - rewrite A. unfold printed. cbn [fst snd]. split; [|reflexivity].
    split; [intros _; now apply Nil|]. intros _. simpl. tauto.
  - assert (No : ~ In NoneFound (printed (analyze_specific_snps self))).
    { rewrite A. unfold printed. cbn [fst snd].
      intros [D|[D|Hin]]; try discriminate.
      rewrite forallb_forall in Fo, Ft.
      apply in_app_iff in Hin as [Hin|Hin];
        [apply Fo in Hin|apply Ft in Hin]; discriminate. }
    split; [|intros H; contradiction].
    split; [intros H; contradiction|].
    intros H. apply Nil in H. contradiction.
Qed.

(* ================================================================= *)
(** ** [export_statistics] *)

Lemma item_ltb_true (a b : str * Z) :
  item_ltb a b = true
  <-> str_compare (fst a) (fst b) = Lt
      \/ (fst a = fst b /\ snd a < snd b).
Proof.
  unfold item_ltb. destruct (str_compare (fst a) (fst b)) eqn:E.
  - apply str_compare_eq in E. rewrite Z.ltb_lt. split; [tauto|].
    intros [D|[_ H]]; [discriminate|exact H].
  - tauto.
  - split; [discriminate|]. intros [D|[F _]]; [discriminate|].
    rewrite F, str_compare_refl in E. discriminate.
Qed.

Lemma item_ltb_irrefl (a : str * Z) : item_ltb a a = false.
Proof.
  unfold item_ltb. rewrite str_compare_refl. apply Z.ltb_irrefl.
Qed.

Lemma item_ltb_trans (a b c : str * Z) :
  item_ltb a b = true -> item_ltb b c = true -> item_ltb a c = true.
Proof.
  rewrite !item_ltb_true. intros [H1|[E1 H1]] [H2|[E2 H2]].
  - left. eapply str_compare_lt_trans; eauto.
  - left. now rewrite <- E2.
  - left. now rewrite E1.
  - right. split; [congruence|lia].
Qed.

Lemma item_ltb_total (a b : str * Z) :
  item_ltb a b = false -> item_ltb b a = false -> a = b.
Proof.
  unfold item_ltb. rewrite (str_compare_antisym (fst a) (fst b)).
  destruct a as [s x], b as [t y]. simpl.
  destruct (str_compare s t) eqn:E; simpl; try discriminate.
  apply str_compare_eq in E. subst t.
  rewrite !Z.ltb_ge. intros. f_equal. lia.
Qed.

Lemma item_le_trans (a b c : str * Z) :
  item_le a b -> item_le b c -> item_le a c.
Proof.
  unfold item_le. intros H1 H2.
  destruct (item_ltb c a) eqn:E; [|reflexivity].
  destruct (item_ltb a b) eqn:E2.
  - pose proof (item_ltb_trans _ _ _ E E2) as T. congruence.
  - assert (a = b) by now apply item_ltb_total. subst. congruence.
Qed.

Lemma insert_item_perm (x : str * Z) (l : list (str * Z)) :
  Permutation (insert_item x l) (x :: l).
Proof.
  induction l as [|y l IH]; simpl; [reflexivity|].
  destruct (item_ltb y x); [|reflexivity].
  rewrite IH. apply perm_swap.
Qed.

Lemma insert_item_sorted (x : str * Z) (l : list (str * Z)) :
  StronglySorted item_le l -> StronglySorted item_le (insert_item x l).
Proof.
  induction l as [|y l IH]; simpl; intros H.
  - repeat constructor.
  - inversion H as [|? ? Hs Hf]; subst.
    destruct (item_ltb y x) eqn:E.
    + constructor; [auto|].
      apply (Permutation_Forall (Permutation_sym (insert_item_perm x l))).
      constructor; [|exact Hf]. unfold item_le.
      destruct (item_ltb x y) eqn:E2; [|reflexivity].
      pose proof (item_ltb_trans _ _ _ E E2) as T.
      now rewrite item_ltb_irrefl in T.
    + constructor; [exact H|]. constructor; [exact E|].
      eapply Forall_impl; [|exact Hf].
      intros z Hz. now apply item_le_trans with y.
Qed.

Lemma sorted_items_spec (d : dict Z) :
  Permutation (sorted_items d) d /\ StronglySorted item_le (sorted_items d).
Proof.
  unfold sorted_items, items. induction d as [|x d [P S]]; simpl.
  - split; constructor.
  - split; [now rewrite insert_item_perm, P|now apply insert_item_sorted].
Qed.

(** Sorted tuples with distinct labels ascend strictly by label. *)
Lemma sorted_by_label (l : list (str * Z)) :
  NoDup (map fst l) -> StronglySorted item_le l ->
  StronglySorted (fun a b => str_compare (fst a) (fst b) = Lt) l.
Proof.
  induction l as [|x l IH]; intros N S; [constructor|].
  inversion N as [|? ? Hn Hd]; inversion S as [|? ? Hs Hf]; subst.
  constructor; [auto|].
  rewrite Forall_forall in Hf |- *. intros y Hy.
  specialize (Hf y Hy). unfold item_le, item_ltb in Hf.
  rewrite (str_compare_antisym (fst x) (fst y)) in Hf.
  destruct (str_compare (fst x) (fst y)) eqn:E; simpl in Hf;
    [|reflexivity|discriminate].
  apply str_compare_eq in E. exfalso. apply Hn. rewrite E.
  now apply in_map.
Qed.

Lemma export_rows_app (a b : list export_line) :
  export_rows (a ++ b) = export_rows a ++ export_rows b.
Proof.
  induction a as [|x a IH]; [reflexivity|].
  destruct x; simpl; rewrite ?IH; reflexivity.
Qed.

Lemma export_rows_chr (l : list (str * Z)) :
  export_rows (map (fun cc => ExportChr (fst cc) (snd cc)) l) = l.
Proof.
  induction l as [|[c n] l IH]; simpl; rewrite ?IH; reflexivity.
Qed.

(** X11. After the parsing pass, the file [export_statistics] writes
    holds one chromosome line for each distinct chromosome label of the
    records, with the number of records of that label, and these lines
    ascend strictly by label in code-point order. *)
Theorem export_rows_sorted (file path : str) (f : list str) :
  let self := state_of (parse_genome_file f (init file)) in
  let rows := export_rows (written (export_statistics self path)) in
  Permutation (map fst rows) (first_seen (map chromosome (snps self)))
  /\ StronglySorted (fun a b => str_compare (fst a) (fst b) = Lt) rows
  /\ (forall c n, In (c, n) rows ->
                  n = count_by chromosome (fun x => str_eqb x c) (snps self)).
Proof.
  intros self rows.
  destruct (counter_keys_ok_parsed file f) as (Hc & _ & Nc & _).
  destruct (counters_ok_parsed file f) as (_ & Tc & _).
  fold self in Hc, Nc, Tc.
  destruct (sorted_items_spec (chromosome_counts self)) as [P S].
  assert (R : rows = sorted_items (chromosome_counts self)).
  { unfold rows, export_statistics, written.
    rewrite export_rows_app. simpl. apply export_rows_chr. }
  assert (L : Permutation (map fst rows) (keys (chromosome_counts self))).
  { rewrite R. unfold keys. now apply Permutation_map. }
  repeat split.
  - now rewrite L, Hc.
  - rewrite R. apply sorted_by_label; [|exact S].
    apply (Permutation_NoDup (Permutation_sym L)) in Nc. now rewrite <- R.
  - intros c n Hin. rewrite R in Hin.
    apply (Permutation_in _ P) in Hin.
    apply (get_in_nodup _ _ _ Nc) in Hin.
    rewrite <- Tc, tally_key by exact Nc.
    unfold count_of. now rewrite Hin.
Qed.

(* ================================================================= *)
(** ** The parsing pass on two inputs in a row *)

Lemma for_each_app {A} (body : A -> M unit) (xs ys : list A) (d : decoder) :
  for_each (xs ++ ys) body d
  = match for_each xs body d with
    | (d1, o1, inl e) => (d1, o1, inl e)
    | (d1, o1, inr _) =>
        match for_each ys body d1 with
        | (d2, o2, r) => (d2, o1 ++ o2, r)
        end
    end.
Proof.
  revert d. induction xs as [|x xs IH]; intros d; simpl.
  - now destruct (for_each ys body d) as [[? ?] ?].
  - unfold bind. destruct (body x d) as [[d1 o1] [e|u]]; [reflexivity|].
    rewrite IH. destruct (for_each xs body d1) as [[d2 o2] [e|u']];
      [reflexivity|].
    destruct (for_each ys body d2) as [[d3 o3] r]. now rewrite app_assoc.
Qed.

Lemma parse_line_grows (raw : str) (d : decoder) :
  exists extra,
    snps (state_of (parse_line raw d)) = snps d ++ extra
    /\ (List.length extra <= 1)%nat.
Proof.
  destruct (parse_line_cases raw d) as [E|[E|[s E]]]; rewrite E;
    unfold state_of; simpl.
  - exists []. rewrite app_nil_r. split; [reflexivity|simpl; lia].
  - exists []. rewrite app_nil_r. split; [reflexivity|simpl; lia].
  - exists [s]. split; [reflexivity|simpl; lia].
Qed.

Lemma for_each_parse_grows (f : list str) (d : decoder) :
  exists extra,
    snps (state_of (for_each f parse_line d)) = snps d ++ extra
    /\ (List.length extra <= List.length f)%nat.
Proof.
  revert d. induction f as [|raw f IH]; intros d.
  - exists []. rewrite app_nil_r. split; [reflexivity|simpl; lia].
  - cbn [for_each]. unfold bind.
    destruct (parse_line_grows raw d) as (e1 & E1 & L1).
    destruct (parse_line raw d) as [[d1 o1] [e|u]]; unfold state_of in *;
      cbn [fst snd] in *.
    + exists e1. split; [exact E1|simpl; lia].
    + destruct (IH d1) as (e2 & E2 & L2).
      destruct (for_each f parse_line d1) as [[d2 o2] r].
      cbn [fst snd] in *. exists (e1 ++ e2).
      rewrite E2, E1, app_assoc. split; [reflexivity|].
      rewrite length_app. simpl. lia.
Qed.

(** X12. The parsing pass reads its input in order and stops at the first
    line that raises: on two inputs in a row it leaves what parsing the
    second leaves on the object that parsing the first left, unless the
    first raises, and then the second is not read.  It keeps the records
    already there and adds at most one record for each line. *)
Theorem parsing_in_a_row (f1 f2 : list str) (d : decoder) :
  let first := parse_genome_file f1 d in
  let both := parse_genome_file (f1 ++ f2) d in
  (raised first = None ->
   state_of both = state_of (parse_genome_file f2 (state_of first))
   /\ raised both = raised (parse_genome_file f2 (state_of first)))
  /\ (raised first <> None ->
      state_of both = state_of first /\ raised both = raised first)
  /\ exists extra,
       snps (state_of both) = snps d ++ extra
       /\ (List.length extra <= List.length (f1 ++ f2))%nat.
Proof.
  intros first both. subst first both.
  unfold parse_genome_file, bind, get_self, print.
  pose proof (for_each_parse_grows (f1 ++ f2) d) as G.
  rewrite for_each_app in G |- *.
  destruct (for_each f1 parse_line d) as [[d1 o1] [e|u]];
    unfold state_of, raised in *; cbn [fst snd] in *.
  - repeat split; try discriminate; try exact G.
  - destruct (for_each f2 parse_line d1) as [[d2 o2] [e|u']];
      cbn [fst snd] in *;
      (split; [intros _; now split|]);
      (split; [intros C; now contradiction C|exact G]).
Qed.

(* ================================================================= *)
(** ** [main] *)

Lemma generate_summary_keeps (self : decoder) :
  state_of (generate_summary self) = self.
Proof.
  destruct (Z.eq_dec (total_snps self) 0) as [T|T].
  { now rewrite (generate_summary_zero_total self T). }
  destruct (all_keys (keys (chromosome_counts self))) as [e|ks] eqn:L.
  { now rewrite (generate_summary_raises_at_keys self e T L). }
  destruct (Z.eq_dec (fst (classify (genotype_counts self))
                      + snd (classify (genotype_counts self))) 0) as [C|C].
  { now rewrite (generate_summary_raises_at_genotypes self ks T L C). }
  now rewrite (generate_summary_returns self ks T L C).
Qed.

Lemma analyze_keeps (self : decoder) :
  state_of (analyze_specific_snps self) = self.
Proof. now destruct (analyze_run self). Qed.

Ltac stages_done :=
  repeat split; intros;
  repeat match goal with
         | H : _ /\ _ |- _ => destruct H
         end;
  try discriminate; try reflexivity; try congruence;
  try match goal with
      | C : ?x <> ?x |- _ => now contradiction C
      | Z : ?t = 0 -> ?x <> ?x, T : ?t = 0 |- _ => now contradiction (Z T)
      end;
  try match goal with
      | |- context [if ?b then _ else _] => now destruct b
      end;
  rewrite ?app_nil_r; try reflexivity.

(** X13. [main] runs the three methods in turn on one object and stops
    at the first that raises: what it prints is what they printed up to
    that point, and the object is the one the parsing pass left, which
    the summary and the analysis do not change.  The statistics are
    exported only with the flag set and after all three returned; in
    particular an input that leaves no record is never exported, since
    the summary raises on it. *)
Theorem main_stages (file : str) (f : list str) (export : bool) :
  let p := parse_genome_file f (init file) in
  let self := state_of p in
  let s := generate_summary self in
  let a := analyze_specific_snps self in
  let m := run_main file f export in
  state_of (fst m) = self
  /\ (raised (fst m) = None
      <-> raised p = None /\ raised s = None /\ raised a = None)
  /\ (raised p <> None ->
      printed (fst m) = printed p /\ raised (fst m) = raised p)
  /\ (raised p = None -> raised s <> None ->
      printed (fst m) = printed p ++ printed s
      /\ raised (fst m) = raised s)
  /\ (raised p = None -> raised s = None ->
      printed (fst m) = printed p ++ printed s ++ printed a
      /\ raised (fst m) = raised a)
  /\ snd m
     = (if export then
          match raised (fst m) with
          | None => export_statistics self (lit "genome_stats.txt")
          | Some _ => []
          end
        else [])
  /\ (total_snps self = 0 -> raised (fst m) <> None /\ snd m = []).
Proof.
  intros p self s a m.
  assert (Z0 : total_snps self = 0 -> raised s <> None).
  { intros T. unfold s. now rewrite (generate_summary_zero_total self T). }
  pose proof (generate_summary_keeps self) as Ks.
  pose proof (analyze_keeps self) as Ka.
  fold s in Ks. fold a in Ka.
  subst m. unfold run_main, main, bind. fold p.
  subst self. unfold s, a in *. clear s a.
  destruct p as [[d1 o1] [e|u]]; unfold state_of, raised, printed in *;
    cbn [fst snd] in *; [stages_done|].
  destruct (generate_summary d1) as [[d2 o2] [e|u2]]; cbn [fst snd] in *;
    subst d2; [stages_done|].
  destruct (analyze_specific_snps d1) as [[d3 o3] [e|u3]];
    cbn [fst snd] in *; subst d3; stages_done.
Qed.

(* ================================================================= *)
(** ** The content of the report *)

(** A dictionary with distinct keys is its keys with what a lookup
    gives. *)
Lemma dict_as_lookup {V} (d : dict V) (g : str -> option V) :
  (forall k v, In (k, v) d -> g k = Some v) ->
  d = flat_map (fun k => match g k with
                         | Some v => [(k, v)]
                         | None => []
                         end) (keys d).
Proof.
  unfold keys. induction d as [|[k v] d IH]; intros H; [reflexivity|].
  cbn [map flat_map fst]. rewrite (H k v (or_introl eq_refl)).
  cbn [app]. f_equal. apply IH. intros k' v' Hin. apply H. now right.
Qed.

Lemma found_as_records (l : list snp) :
  fst (find_snps l) = found_records l.
Proof.
  unfold found_records. rewrite <- found_keys.
  apply dict_as_lookup. intros id s Hin. now apply found_in in Hin.
Qed.

(** X14. The dictionary [found_snps] the search loop builds holds, for
    each notable identifier that occurs in the records, one entry, in the
    order in which the identifiers first occur, and its value is the last
    record with that identifier. *)
Theorem found_snps_content (l : list snp) :
  fst (find_snps l) = found_records l
  /\ keys (fst (find_snps l)) = notable_ids l
  /\ NoDup (notable_ids l)
  /\ (forall id, In id (notable_ids l)
                 <-> contains interesting_snps id = true
                     /\ exists s, In s l /\ rsid s = id).
Proof.
  split; [apply found_as_records|]. split; [apply found_keys|].
  split; [apply first_seen_nodup|].
  intros id. unfold notable_ids. rewrite first_seen_in, filter_In, in_map_iff.
  split.
  - intros [(s & E & Hin) C]. split; [exact C|]. now exists s.
  - intros [C (s & Hin & E)]. split; [|exact C]. now exists s.
Qed.

Lemma report_marker_exact (id : str) (s : snp) (d : decoder) :
  contains interesting_snps id = true ->
  marker_raises (id, s) = false ->
  report_marker (id, s) d = (d, marker_block (id, s), inr tt).
Proof.
  unfold report_marker, marker_raises, marker_block, subscript, contains.
  cbn [fst snd]. intros H.
  destruct (is_apoe id); cbn [negb andb]; [reflexivity|].
  destruct (get interesting_snps id) as [label|]; [|discriminate].
  unfold bind, print, ret, format_comma.
  destruct (position s) as [n|raw]; [|discriminate]. intros _.
  destruct (get genotype_interpretations id) as [table|];
    [destruct (get table (genotype s))|]; reflexivity.
Qed.

Lemma report_markers_exact (found : list (str * snp)) (d : decoder) :
  (forall id s, In (id, s) found -> contains interesting_snps id = true) ->
  existsb marker_raises found = false ->
  for_each found report_marker d = (d, flat_map marker_block found, inr tt).
Proof.
  induction found as [|[id s] found IH]; intros H N; [reflexivity|].
  cbn [existsb] in N. apply orb_false_iff in N as [N1 N2].
  cbn [for_each flat_map]. unfold bind.
  rewrite (report_marker_exact id s d (H id s (or_introl eq_refl)) N1).
  rewrite IH; [reflexivity| |exact N2].
  intros id' s' Hin. apply (H id' s'). now right.
Qed.

(** X15. When [analyze_specific_snps] returns it has printed, after its
    heading and the search line: the line saying none was found when no
    record is notable; otherwise, for each notable identifier in order of
    first occurrence, the block of the last record with that identifier
    (nothing for the two APOE markers; for the others the marker with its
    label, the chromosome and position, the genotype, and the
    interpretation exactly when the genotype is in the marker's table),
    and then the APOE block. *)
Theorem report_content (self : decoder) :
  raised (analyze_specific_snps self) = None ->
  printed (analyze_specific_snps self)
  = Heading "GENETIC VARIANT ANALYSIS WITH INTERPRETATIONS"
    :: Searching
    :: match found_records (snps self) with
       | [] => [NoneFound]
       | found => flat_map marker_block found ++ apoe_block (snps self)
       end.
Proof.
  intros R. destruct (analyze_run self) as [_ Run].
  pose proof (apoe_block_run (snps self) self) as B.
  pose proof (fun id s => found_in (snps self) id s) as I.
  rewrite <- found_as_records. revert R Run.
  unfold analyze_specific_snps, bind, get_self, print, items.
  destruct (find_snps (snps self)) as [found apoe]. cbn [fst snd] in *.
  destruct found as [|item found]; [reflexivity|].
  destruct (existsb marker_raises (item :: found)) eqn:N.
  { intros R [R' _]. congruence. }
  intros _ _.
  rewrite (report_markers_exact (item :: found) self); [|  |exact N].
  - now rewrite B.
  - intros id s Hin. now apply I in Hin.
Qed.

Lemma report_content_witness :
  let self :=
    state_of (parse_genome_file
                [ data_line (lit "rs4680") (lit "22") (lit "19951271")
                    (lit "GG");
                  data_line (lit "rs4680") (lit "22") (lit "19951271")
                    (lit "AC") ]
                (init (lit "genome.txt"))) in
  printed (analyze_specific_snps self)
  = [ Heading "GENETIC VARIANT ANALYSIS WITH INTERPRETATIONS"; Searching;
      Marker (lit "rs4680") "COMT gene (dopamine metabolism)";
      Location (lit "22") 19951271; YourGenotype (lit "AC") ].
Proof.
  intros self. rewrite (report_content self); vm_compute; reflexivity.
Defined.

(* ================================================================= *)
(** ** Genotypes of two characters *)

Lemma count_by_two_chars (l : list snp) :
  (forall s, In s l -> List.length (genotype s) = 2%nat) ->
  count_by genotype is_homozygous l + count_by genotype is_heterozygous l
  + count_by genotype is_no_call l = Z.of_nat (List.length l).
Proof.
  unfold count_by. induction l as [|s l IH]; intros H; [reflexivity|].
  specialize (IH (fun s' Hs' => H s' (or_intror Hs'))).
  pose proof (H s (or_introl eq_refl)) as L. cbn [filter].
  assert (C : (is_homozygous (genotype s) = true
               /\ is_heterozygous (genotype s) = false
               /\ is_no_call (genotype s) = false)
              \/ (is_homozygous (genotype s) = false
                  /\ is_heterozygous (genotype s) = true
                  /\ is_no_call (genotype s) = false)
              \/ (is_homozygous (genotype s) = false
                  /\ is_heterozygous (genotype s) = false
                  /\ is_no_call (genotype s) = true)).
  { unfold is_homozygous, is_heterozygous.
    destruct (is_no_call (genotype s)); [now right; right|].
    destruct (genotype s) as [|a [|b [|c g]]]; try discriminate.
    cbn [negb andb]. destruct (N.eqb a b); [now left|now right; left]. }
  destruct C as [(-> & -> & ->)|[(-> & -> & ->)|(-> & -> & ->)]];
    cbn [List.length]; rewrite ?Nat2Z.inj_succ; lia.
Qed.

(** X16. When every record the parsing pass kept has a genotype of two
    characters, the homozygous and heterozygous totals of the summary add
    up to the total count less the no-call count: every record is a
    no-call, homozygous or heterozygous. *)
Theorem two_char_genotypes_classified (file : str) (f : list str) :
  let self := state_of (parse_genome_file f (init file)) in
  (forall s, In s (snps self) -> List.length (genotype s) = 2%nat) ->
  fst (classify (genotype_counts self))
  + snd (classify (genotype_counts self))
  = total_snps self - no_calls self.
Proof.
  intros self H.
  destruct (counters_ok_parsed file f) as (Ht & _ & Hg & Hn).
  fold self in Ht, Hg, Hn.
  rewrite classify_tally. cbn [fst snd]. rewrite !Hg, Ht, Hn.
  pose proof (count_by_two_chars (snps self) H). lia.
Qed.

Lemma two_char_genotypes_classified_witness :
  let self :=
    state_of (parse_genome_file
                [ data_line (lit "rs1") (lit "1") (lit "100") (lit "AG");
                  data_line (lit "rs2") (lit "1") (lit "200") (lit "--");
                  data_line (lit "rs3") (lit "2") (lit "300") (lit "CC") ]
                (init (lit "genome.txt"))) in
  fst (classify (genotype_counts self))
  + snd (classify (genotype_counts self))
  = total_snps self - no_calls self.
Proof.
  intros self.
  apply (two_char_genotypes_classified (lit "genome.txt")
           [ data_line (lit "rs1") (lit "1") (lit "100") (lit "AG");
             data_line (lit "rs2") (lit "1") (lit "200") (lit "--");
             data_line (lit "rs3") (lit "2") (lit "300") (lit "CC") ]).
  vm_compute. intros s [<-|[<-|[<-|[]]]]; reflexivity.
Defined.

(* ================================================================= *)
(** ** [main] on ASCII input *)

Lemma parse_genome_file_raised (f : list str) (d : decoder) :
  raised (parse_genome_file f d) = raised (for_each f parse_line d).
Proof.
  unfold parse_genome_file, bind, get_self, print.
  now destruct (for_each f parse_line d) as [[d1 o1] [e|[]]].
Qed.

(** X17. On ASCII input whose lines are each at most 4300 characters
    long (the number of digits [int] accepts), the three methods [main]
    runs all return exactly when at least one record has a two-character
    genotype other than the sentinel and no notable marker other than the
    two APOE markers has, in its last record, a position that is not a
    number. *)
Theorem ascii_main_outcome (file : str) (f : list str) :
  (forall raw, In raw f -> plain raw) ->
  let self := state_of (parse_genome_file f (init file)) in
  let classified :=
    count_by genotype is_homozygous (snps self)
    + count_by genotype is_heterozygous (snps self) in
  raised (main file f) = None
  <-> 0 < classified
      /\ existsb marker_raises (found_records (snps self)) = false.
Proof.
  intros H self classified.
  pose proof (parse_genome_file_raised f (init file)) as P.
  rewrite (proj2 (parse_plain_quiet f (init file) H)) in P.
  destruct (ascii_summary_cases file f H) as (S1 & S2 & S3).
  fold self classified in S1, S2, S3.
  destruct (analyze_run self) as [_ A].
  rewrite found_as_records in A.
  pose proof (generate_summary_keeps self) as Ks.
  pose proof (analyze_keeps self) as Ka.
  unfold main, bind. subst self.
  destruct (parse_genome_file f (init file)) as [[d1 o1] [e|u]];
    unfold state_of, raised in *; cbn [fst snd] in *; [discriminate|].
  destruct (generate_summary d1) as [[d2 o2] [e|u2]]; cbn [fst snd] in *.
  - split; [discriminate|]. intros [C _]. now apply S1 in C.
  - assert (C : 0 < classified).
    { destruct (Z.eq_dec classified 0) as [Z|Z]; [|lia].
      apply S2 in Z. discriminate. }
    subst d2. unfold items in A.
    destruct (analyze_specific_snps d1) as [[d3 o3] r]; cbn [fst snd] in *.
    destruct (existsb marker_raises (found_records (snps d1)));
      destruct A as [A _]; destruct r as [e|u3]; try discriminate.
    + split; [discriminate|]. intros [_ D]. discriminate.
    + split; [now split|reflexivity].
Qed.

Lemma ascii_main_outcome_witness :
  raised (main (lit "genome.txt")
            [ data_line (lit "rs4680") (lit "22") (lit "19951271")
                (lit "AG") ])
  = None.
Proof.
  apply (ascii_main_outcome (lit "genome.txt")
           [ data_line (lit "rs4680") (lit "22") (lit "19951271")
               (lit "AG") ]).
  - intros raw [<-|[]].
    split; [unfold ascii_only; repeat constructor|vm_compute; discriminate].
  - vm_compute. split; reflexivity.
Defined.

(* ================================================================= *)
(** ** The last occurrence of a marker *)

Lemma find_over_app {A} (p : A -> bool) (a b : list A) :
  find p (a ++ b)
  = match find p a with
    | Some x => Some x
    | None => find p b
    end.
Proof.
  induction a as [|x a IH]; simpl; [reflexivity|]. now destruct (p x).
Qed.

(** A record that a record of the same identifier follows is the last
    record of no identifier. *)
Lemma last_with_shadowed (id : str) (pre mid post : list snp)
      (earlier earlier' later : snp) :
  rsid earlier = rsid later ->
  rsid earlier' = rsid later ->
  last_with id (pre ++ earlier :: mid ++ later :: post)
  = last_with id (pre ++ earlier' :: mid ++ later :: post).
Proof.
  intros E E'. unfold last_with.
  rewrite !rev_app_distr. cbn [rev]. rewrite !rev_app_distr. cbn [rev].
  rewrite !find_over_app. cbn [find]. rewrite E, E'.
  destruct (find _ (rev post)); [reflexivity|].
  now destruct (str_eqb (rsid later) id).
Qed.

Lemma found_records_shadowed (pre mid post : list snp)
      (earlier earlier' later : snp) :
  rsid earlier = rsid later ->
  rsid earlier' = rsid later ->
  found_records (pre ++ earlier :: mid ++ later :: post)
  = found_records (pre ++ earlier' :: mid ++ later :: post).
Proof.
  intros E E'. unfold found_records, notable_ids.
  rewrite !map_app. cbn [map]. rewrite E, E'.
  apply flat_map_ext. intros id.
  now rewrite (last_with_shadowed id pre mid post earlier earlier' later).
Qed.

Lemma apoe_block_shadowed (pre mid post : list snp)
      (earlier earlier' later : snp) :
  rsid earlier = rsid later ->
  rsid earlier' = rsid later ->
  apoe_block (pre ++ earlier :: mid ++ later :: post)
  = apoe_block (pre ++ earlier' :: mid ++ later :: post).
Proof.
  intros E E'. unfold apoe_block.
  now rewrite !(last_with_shadowed _ pre mid post earlier earlier' later).
Qed.

(** The report of an entry reads nothing of the object. *)
Lemma report_marker_any (item : str * snp) (d d' : decoder) :
  report_marker item d
  = (d, printed (report_marker item d'), snd (report_marker item d')).
Proof.
  destruct item as [id s].
  unfold report_marker, subscript, bind, print, ret, raise, format_comma,
    printed.
  destruct (is_apoe id); cbn [negb]; [reflexivity|].
  destruct (get interesting_snps id) as [label|]; [|reflexivity].
  destruct (position s) as [n|raw]; [|reflexivity].
  destruct (get genotype_interpretations id) as [table|];
    [destruct (get table (genotype s))|]; reflexivity.
Qed.

Lemma report_markers_any (found : list (str * snp)) (d d' : decoder) :
  for_each found report_marker d
  = (d, printed (for_each found report_marker d'),
     snd (for_each found report_marker d')).
Proof.
  revert d d'. induction found as [|item found IH]; intros d d';
    [reflexivity|].
  cbn [for_each]. unfold bind.
  rewrite (report_marker_any item d d').
  destruct (report_marker item d') as [[d1 o1] [e|u]];
    unfold printed; cbn [fst snd]; [reflexivity|].
  rewrite (IH d d1).
  now destruct (for_each found report_marker d1) as [[d2 o2] r2].
Qed.

(** The whole method on the entries and the APOE block of the records. *)
Lemma analyze_as_report (self : decoder) :
  analyze_specific_snps self
  = (print (Heading "GENETIC VARIANT ANALYSIS WITH INTERPRETATIONS") ;;
     print Searching ;;
     match found_records (snps self) with
     | [] => print NoneFound
     | _ :: _ =>
         for_each (found_records (snps self)) report_marker ;;
         (fun d => (d, apoe_block (snps self), inr tt))
     end) self.
Proof.
  pose proof (apoe_block_run (snps self)) as B.
  rewrite <- found_as_records.
  unfold analyze_specific_snps, bind, get_self, print, items.
  destruct (find_snps (snps self)) as [found apoe]. cbn [fst snd] in *.
  destruct found as [|item found]; [reflexivity|].
  destruct (for_each (item :: found) report_marker self) as [[d o] [e|u]];
    [reflexivity|].
  now rewrite B.
Qed.

(** Two objects whose records give the same entries and the same APOE
    block get the same report. *)
Lemma analyze_same_report (self other : decoder) :
  found_records (snps other) = found_records (snps self) ->
  apoe_block (snps other) = apoe_block (snps self) ->
  printed (analyze_specific_snps other) = printed (analyze_specific_snps self)
  /\ raised (analyze_specific_snps other)
     = raised (analyze_specific_snps self).
Proof.
  intros F B. rewrite !analyze_as_report, F, B.
  unfold bind, print.
  destruct (found_records (snps self)) as [|item found]; [now split|].
  rewrite (report_markers_any (item :: found) other self).
  destruct (for_each (item :: found) report_marker self) as [[d o] [e|u]];
    now split.
Qed.

(** C10. The search loop leaves in [found_snps], for every notable marker
    identifier, the last record of the input with that identifier, and in
    [apoe_snps], for each of the two APOE identifiers, the genotype of that
    last record: a later record overwrites an earlier one.  The report is
    made of these.  When the method returns it has printed, for each
    notable identifier in the order of first occurrence, the marker, the
    chromosome, the position and the genotype of the last record with that
    identifier (and its interpretation), and then the APOE block resolved
    from the genotypes of the last records of rs429358 and rs7412; it
    raises exactly when such a last record, of a marker other than the two
    APOE markers, has a position kept as a string.  And nothing of an
    earlier record but its identifier reaches the report: putting another
    record with the same identifier in its place changes neither the lines
    printed nor the outcome. *)
Theorem last_occurrence_wins (self : decoder) :
  let l := snps self in
  let found_snps := fst (find_snps l) in
  let apoe_snps := snd (find_snps l) in
  let run := analyze_specific_snps self in
  (forall id, contains interesting_snps id = true ->
              get found_snps id = last_with id l)
  /\ (forall id s, In (id, s) (items found_snps) -> last_with id l = Some s)
  /\ (forall id, is_apoe id = true ->
                 get apoe_snps id = option_map genotype (last_with id l))
  /\ (forall pre earlier later,
        rsid earlier = rsid later ->
        contains interesting_snps (rsid later) = true ->
        get (fst (find_snps (pre ++ [earlier; later]))) (rsid later)
        = Some later)
  /\ items found_snps = found_records l
  /\ (raised run = None
      <-> existsb marker_raises (found_records l) = false)
  /\ (raised run = None ->
      printed run
      = Heading "GENETIC VARIANT ANALYSIS WITH INTERPRETATIONS"
        :: Searching
        :: match found_records l with
           | [] => [NoneFound]
           | found => flat_map marker_block found ++ apoe_block l
           end)
  /\ (existsb marker_raises (found_records l) = true ->
      raised run = Some ValueError
      /\ filter is_apoe_out (printed run) = [])
  /\ (forall other pre earlier earlier' mid later post,
        rsid earlier = rsid later ->
        rsid earlier' = rsid later ->
        l = pre ++ earlier :: mid ++ later :: post ->
        snps other = pre ++ earlier' :: mid ++ later :: post ->
        printed (analyze_specific_snps other) = printed run
        /\ raised (analyze_specific_snps other) = raised run).
Proof.
  intros l found_snps apoe_snps run.
  pose proof (analyze_run self) as [_ R]. fold l run in R.
  unfold items in R. rewrite found_as_records in R.
  split; [intros id H; unfold found_snps; now rewrite found_get, H|].
  split; [intros id s H; now apply found_in in H|].
  split; [intros id H; unfold apoe_snps; now rewrite apoe_get, H|].
  split.
  { intros pre earlier later E H. rewrite found_get, H.
    change (pre ++ [earlier; later]) with (pre ++ [earlier] ++ [later]).
    rewrite app_assoc, last_with_snoc. now rewrite str_eqb_refl. }
  split; [apply found_as_records|].
  split.
  { destruct (existsb marker_raises (found_records l));
      destruct R as [R _]; rewrite R; split; congruence. }
  split.
  { intros Ret. unfold run. rewrite analyze_as_report. fold l.
    destruct (existsb marker_raises (found_records l)) eqn:N;
      [destruct R as [R _]; congruence|].
    unfold bind, print.
    destruct (found_records l) as [|item found] eqn:F; [reflexivity|].
    rewrite (report_markers_exact (item :: found) self); [reflexivity| |exact N].
    intros id s Hin. rewrite <- F in Hin. unfold l in Hin.
    rewrite <- found_as_records in Hin. now apply found_in in Hin. }
  split.
  { intros N. rewrite N in R. exact R. }
  intros other pre earlier earlier' mid later post E E' L L'.
  apply analyze_same_report; fold l; rewrite L, L'.
  - now apply found_records_shadowed.
  - now apply apoe_block_shadowed.
Qed.

Lemma last_occurrence_wins_witness :
  let self :=
    state_of (parse_genome_file
                [ data_line (lit "rs4680") (lit "1") (lit "100") (lit "GG");
                  data_line (lit "rs429358") (lit "19") (lit "45411941")
                    (lit "TT");
                  data_line (lit "rs7412") (lit "19") (lit "45412079")
                    (lit "CC");
                  data_line (lit "rs4680") (lit "22") (lit "19951271")
                    (lit "AG");
                  data_line (lit "rs429358") (lit "19") (lit "45411941")
                    (lit "CT") ]
                (init (lit "genome.txt"))) in
  printed (analyze_specific_snps self)
  = [ Heading "GENETIC VARIANT ANALYSIS WITH INTERPRETATIONS"; Searching;
      Marker (lit "rs4680") "COMT gene (dopamine metabolism)";
      Location (lit "22") 19951271; YourGenotype (lit "AG");
      Interpretation "Val/Met - Intermediate COMT activity";
      ApoeStatus; ApoeGenotypes (lit "CT") (lit "CC"); ApoeType E3E4 ].
Proof.
  intros self.
  destruct (last_occurrence_wins self)
    as (_ & _ & _ & _ & _ & _ & H & _).
  transitivity
    (Heading "GENETIC VARIANT ANALYSIS WITH INTERPRETATIONS"
     :: Searching
     :: match found_records (snps self) with
        | [] => [NoneFound]
        | found => flat_map marker_block found ++ apoe_block (snps self)
        end).
  - apply H. vm_compute. reflexivity.
  - vm_compute. reflexivity.
Defined.
